(** * hono-uws: the uWebSockets.js adapter for Hono ([src/uws.ts])

    A shallow embedding of the adapter core: the lightweight response and
    its fast-path cache, the lazy request and its memoized materialization,
    the response writer (fast path and async path), the per-request
    handler with its abort flag and body bridge, and the WebSocket
    open / message / close callbacks.

    Conventions.  A JavaScript string is a [string] read as the UTF-8
    representation of the text, a [Uint8Array] is a [list byte], a JS
    number holding a status or close code is a [Z].  Closures that the
    source registers on the transport are defunctionalised into small
    inductive types and run by an explicit interpreter.  An [await] is a
    suspension point: the function is split into the part before it and
    the continuation after it, and the environment (abort notifications,
    promise resolutions) acts in between. *)

From Stdlib Require Import ZArith NArith Ascii String List Bool Lia.
From Stdlib.Strings Require Import Byte.
From Stdlib Require Import DecimalString.
From stdpp Require Import base option list strings gmap.

Local Open Scope string_scope.
Local Open Scope list_scope.

(* ====================================================================== *)
(** ** The platform: strings, text decoding, [Headers], [Response]        *)
(* ====================================================================== *)

Module JS.

(** [String.prototype.startsWith]. *)
Definition startsWith (s p : string) : bool := String.prefix p s.

(** [String.prototype.endsWith]. *)
Fixpoint endsWith (s p : string) : bool :=
  String.eqb s p ||
  match s with
  | EmptyString => false
  | String _ s' => endsWith s' p
  end.

(** [String.prototype.includes]. *)
Fixpoint includes (s p : string) : bool :=
  String.prefix p s ||
  match s with
  | EmptyString => false
  | String _ s' => includes s' p
  end.

Definition ascii_in_range (lo hi : N) (c : ascii) : bool :=
  ((lo <=? N_of_ascii c) && (N_of_ascii c <=? hi))%N.

Definition lower_char (c : ascii) : ascii :=
  if ascii_in_range 65 90 c then ascii_of_N (N_of_ascii c + 32) else c.

Definition upper_char (c : ascii) : ascii :=
  if ascii_in_range 97 122 c then ascii_of_N (N_of_ascii c - 32) else c.

Fixpoint map_chars (f : ascii -> ascii) (s : string) : string :=
  match s with
  | EmptyString => EmptyString
  | String c s' => String (f c) (map_chars f s')
  end.

(** Case folding of the ASCII letters, other bytes kept: the byte
    lower-casing of header names by [Headers], and [toUpperCase] on the
    method token the transport hands over. *)
Definition toLowerCase : string -> string := map_chars lower_char.
Definition toUpperCase : string -> string := map_chars upper_char.

(** [Number.prototype.toString] of an integral number. *)
Definition Number_toString (n : Z) : string :=
  NilZero.string_of_int (Z.to_int n).

(** [TextEncoder.encode]: the bytes of the text. *)
Definition utf8_encode (s : string) : list byte := list_byte_of_string s.

(** *** UTF-8 decoding as done by [Response.text()]

    The decoder of the Encoding standard: a leading byte-order mark is
    dropped, well-formed sequences are kept, and every maximal
    ill-formed part becomes U+FFFD.  Since text is kept in its UTF-8
    representation, the decoder returns the bytes of the decoded text. *)

Definition replacement : list byte := [xef; xbf; xbd].

Record dec_state := {
  pending : list byte;   (* bytes of the sequence so far, latest first *)
  needed : nat;          (* continuation bytes still expected *)
  lower : N;             (* bounds for the next continuation byte *)
  upper : N
}.

Definition dec_init : dec_state :=
  {| pending := []; needed := 0; lower := 128; upper := 191 |}.

Definition byte_in_range (lo hi : N) (b : byte) : bool :=
  ((lo <=? Byte.to_N b) && (Byte.to_N b <=? hi))%N.

Definition dec_lead (b : byte) : list byte * dec_state :=
  let n := Byte.to_N b in
  if (n <=? 127)%N then ([b], dec_init)
  else if byte_in_range 194 223 b then
    ([], {| pending := [b]; needed := 1; lower := 128; upper := 191 |})
  else if byte_in_range 224 239 b then
    ([], {| pending := [b]; needed := 2;
            lower := if (n =? 224)%N then 160%N else 128%N;
            upper := if (n =? 237)%N then 159%N else 191%N |})
  else if byte_in_range 240 244 b then
    ([], {| pending := [b]; needed := 3;
            lower := if (n =? 240)%N then 144%N else 128%N;
            upper := if (n =? 244)%N then 143%N else 191%N |})
  else (replacement, dec_init).

Fixpoint dec (bs : list byte) (st : dec_state) : list byte :=
  match bs with
  | [] => match needed st with O => [] | S _ => replacement end
  | b :: bs' =>
      match needed st with
      | O => let '(out, st') := dec_lead b in out ++ dec bs' st'
      | S k =>
          if byte_in_range (lower st) (upper st) b then
            match k with
            | O => rev (b :: pending st) ++ dec bs' dec_init
            | S _ => dec bs' {| pending := b :: pending st; needed := k;
                                lower := 128; upper := 191 |}
            end
          else
            replacement ++
            (let '(out, st') := dec_lead b in out ++ dec bs' st')
      end
  end.

Definition strip_bom (bs : list byte) : list byte :=
  match bs with
  | xef :: xbb :: xbf :: rest => rest
  | _ => bs
  end.

Definition utf8_decode (bs : list byte) : string :=
  string_of_list_byte (dec (strip_bom bs) dec_init).

(** *** [Headers] (Fetch standard)

    The object holds the header list in insertion order with the names
    as given; values are stripped of leading and trailing HTTP
    whitespace when appended; [get] matches names case-insensitively
    and joins the values; iteration ([forEach]) goes over the sorted,
    lower-cased, combined list. *)

Definition is_http_whitespace (c : ascii) : bool :=
  let n := N_of_ascii c in
  ((n =? 9) || (n =? 10) || (n =? 13) || (n =? 32))%N.

Fixpoint trim_start (s : string) : string :=
  match s with
  | String c s' => if is_http_whitespace c then trim_start s' else s
  | EmptyString => EmptyString
  end.

Fixpoint trim_end (s : string) : string :=
  match s with
  | EmptyString => EmptyString
  | String c s' =>
      match trim_end s' with
      | EmptyString =>
          if is_http_whitespace c then EmptyString else String c EmptyString
      | r => String c r
      end
  end.

Definition normalize_value (v : string) : string := trim_end (trim_start v).

Definition Headers : Type := list (string * string).

Definition Headers_append (h : Headers) (name value : string) : Headers :=
  (h ++ [(name, normalize_value value)])%list.

(** The header list that [new Headers(init)] fills from a sequence of
    pairs or a record (the latter given by its own enumerable properties
    in enumeration order), when it accepts them; [construct_Headers]
    below is the constructor with its [TypeError]. *)
Definition new_Headers (init : list (string * string)) : Headers :=
  fold_left (fun h kv => Headers_append h (fst kv) (snd kv)) init [].

(** What the constructor accepts: a name is a non-empty HTTP token; a
    value, once stripped, has no NUL, LF or CR and no code point above
    255 (in the UTF-8 representation: no byte from 0xC4 on). *)
Definition is_token_char (c : ascii) : bool :=
  let n := N_of_ascii c in
  ((48 <=? n) && (n <=? 57) || (65 <=? n) && (n <=? 90) ||
   (97 <=? n) && (n <=? 122) ||
   (n =? 33) || (n =? 35) || (n =? 36) || (n =? 37) || (n =? 38) ||
   (n =? 39) || (n =? 42) || (n =? 43) || (n =? 45) || (n =? 46) ||
   (n =? 94) || (n =? 95) || (n =? 96) || (n =? 124) || (n =? 126))%N.

Fixpoint all_chars (f : ascii -> bool) (s : string) : bool :=
  match s with
  | EmptyString => true
  | String c s' => f c && all_chars f s'
  end.

Definition valid_header_name (name : string) : bool :=
  negb (String.eqb name "") && all_chars is_token_char name.

Definition is_value_char (c : ascii) : bool :=
  let n := N_of_ascii c in
  (negb (n =? 0) && negb (n =? 10) && negb (n =? 13) && (n <? 196))%N.

Definition valid_header_value (value : string) : bool :=
  all_chars is_value_char (normalize_value value).

Definition valid_header_pairs (init : list (string * string)) : bool :=
  forallb (fun kv => valid_header_name (fst kv) && valid_header_value (snd kv))
          init.

Definition Headers_values (h : Headers) (name : string) : list string :=
  map snd
    (List.filter
       (fun kv => String.eqb (toLowerCase (fst kv)) (toLowerCase name)) h).

Definition join_values (vs : list string) : string :=
  match vs with
  | [] => ""
  | v :: rest => fold_left (fun acc x => acc +:+ ", " +:+ x) rest v
  end.

Definition Headers_get (h : Headers) (name : string) : option string :=
  match Headers_values h name with
  | [] => None
  | vs => Some (join_values vs)
  end.

Fixpoint insert_name (x : string) (l : list string) : list string :=
  match l with
  | [] => [x]
  | y :: rest =>
      if String.ltb x y then x :: l
      else if String.eqb x y then l
      else y :: insert_name x rest
  end.

Definition sorted_names (h : Headers) : list string :=
  fold_right insert_name [] (map (fun kv => toLowerCase (fst kv)) h).

(** The entries in the order in which [forEach] visits them. *)
Definition Headers_entries (h : Headers) : list (string * string) :=
  flat_map
    (fun n =>
       if String.eqb n "set-cookie"
       then map (fun v => (n, v)) (Headers_values h n)
       else match Headers_get h n with
            | Some v => [(n, v)]
            | None => []
            end)
    (sorted_names h).

(** *** Completions: a call returns normally or throws *)

Inductive Completion (A : Type) : Type :=
| Normal (a : A)
| Throw (e : string).
Arguments Normal {A} a.
Arguments Throw {A} e.

(** *** Bodies and the native [Response] (Fetch standard) *)

(** What a readable stream delivers when it is drained: its chunks, or
    an error. *)
Record ReadableStream := {
  chunks : list (list byte);
  errors : bool
}.

Inductive BodyInit : Type :=
| BString (s : string)
| BUint8Array (b : list byte)
| BReadableStream (rs : ReadableStream)
| BBlob (type : string) (b : list byte)
| BArrayBuffer (b : list byte)
| BURLSearchParams (s : string).

Inductive HeadersInit : Type :=
| InitHeaders (h : Headers)                  (* a [Headers] instance *)
| InitArray (l : list (string * string))     (* an array of pairs *)
| InitRecord (r : list (string * string)).   (* a plain record *)

Record ResponseInit := {
  init_status : option Z;
  init_statusText : option string;
  init_headers : option HeadersInit
}.

Record Response := {
  rsp_status : Z;
  rsp_headers : Headers;
  rsp_body : option BodyInit;
  rsp_bodyUsed : bool
}.

(** [new Headers(init)]: a [TypeError] for a name or a value it does not
    accept. *)
Definition construct_Headers (init : list (string * string))
  : Completion Headers :=
  if valid_header_pairs init then Normal (new_Headers init)
  else Throw "TypeError".

(** The content type that extracting a body yields. *)
Definition body_type (b : BodyInit) : option string :=
  match b with
  | BString _ => Some "text/plain;charset=UTF-8"
  | BBlob t _ => if String.eqb t "" then None else Some t
  | BURLSearchParams _ =>
      Some "application/x-www-form-urlencoded;charset=UTF-8"
  | BUint8Array _ | BReadableStream _ | BArrayBuffer _ => None
  end.

(** Filling the headers of a response from [init.headers]. *)
Definition headers_of_init (hi : option HeadersInit) : Completion Headers :=
  match hi with
  | None => Normal []
  | Some (InitHeaders h) => construct_Headers h
  | Some (InitArray l) => construct_Headers l
  | Some (InitRecord r) => construct_Headers r
  end.

(** [init.status] is an [unsigned short]: the number is taken modulo
    65536 before it is looked at. *)
Definition unsigned_short (n : Z) : Z := (n mod 65536)%Z.

(** [init.statusText] has to be a reason phrase: tabs, spaces, visible
    ASCII and code points from 128 to 255. *)
Definition is_reason_char (c : ascii) : bool :=
  let n := N_of_ascii c in
  ((n =? 9) || (32 <=? n) && (n <=? 126) || (128 <=? n) && (n <? 196))%N.

Definition valid_statusText (t : option string) : bool :=
  match t with
  | Some text => all_chars is_reason_char text
  | None => true
  end.

Definition is_null_body_status (st : Z) : bool :=
  ((st =? 101) || (st =? 103) || (st =? 204) || (st =? 205) || (st =? 304))%Z.

(** [new Response(body, init)]: a [RangeError] for a status that, as an
    [unsigned short], is outside 200..599; a [TypeError] for a status
    text that is no reason phrase, for headers the [Headers] constructor
    refuses, and for a body with a null-body status; the body's content
    type is appended when no [Content-Type] is given. *)
Definition new_Response (body : option BodyInit) (init : option ResponseInit)
  : Completion Response :=
  let st := match init with
            | Some i => match init_status i with
                        | Some n => unsigned_short n
                        | None => 200%Z
                        end
            | None => 200%Z
            end in
  if negb ((200 <=? st) && (st <=? 599))%Z then Throw "RangeError"
  else if negb (valid_statusText (match init with
                                  | Some i => init_statusText i
                                  | None => None
                                  end))
  then Throw "TypeError"
  else
    match headers_of_init (match init with
                           | Some i => init_headers i
                           | None => None
                           end) with
    | Throw e => Throw e
    | Normal h =>
        match body with
        | None =>
            Normal {| rsp_status := st; rsp_headers := h;
                      rsp_body := None; rsp_bodyUsed := false |}
        | Some b =>
            if is_null_body_status st then Throw "TypeError"
            else
              let h' := match body_type b, Headers_get h "content-type" with
                        | Some t, None => Headers_append h "content-type" t
                        | _, _ => h
                        end in
              Normal {| rsp_status := st; rsp_headers := h';
                        rsp_body := Some b; rsp_bodyUsed := false |}
        end
    end.

(** The bytes a body delivers when it is consumed; [None] when its
    stream errors. *)
Definition body_bytes (b : BodyInit) : option (list byte) :=
  match b with
  | BString s => Some (utf8_encode s)
  | BUint8Array b | BBlob _ b | BArrayBuffer b => Some b
  | BReadableStream rs =>
      if errors rs then None else Some (concat (chunks rs))
  | BURLSearchParams s => Some (utf8_encode s)
  end.

(** Consuming the body: the promise of [arrayBuffer()] and the response
    after the call.  A used body rejects. *)
Definition Response_arrayBuffer (r : Response)
  : Completion (list byte) * Response :=
  match rsp_body r with
  | None => (Normal [], r)
  | Some b =>
      if rsp_bodyUsed r then (Throw "TypeError", r)
      else
        let r' := {| rsp_status := rsp_status r; rsp_headers := rsp_headers r;
                     rsp_body := rsp_body r; rsp_bodyUsed := true |} in
        match body_bytes b with
        | Some bs => (Normal bs, r')
        | None => (Throw "StreamError", r')
        end
  end.

Definition Response_text (r : Response) : Completion string * Response :=
  match Response_arrayBuffer r with
  | (Normal bs, r') => (Normal (utf8_decode bs), r')
  | (Throw e, r') => (Throw e, r')
  end.

End JS.

Import JS.

(* ====================================================================== *)
(** ** The transport: uWebSockets.js [HttpResponse]                       *)
(* ====================================================================== *)

(** The closures the adapter hands to [res.onAborted]: the one of
    [getBody] ([() => writer.abort()]) and the one of the request handler
    ([() => { aborted = true }]). *)
Inductive AbortedHandler : Type :=
| AbortWriter
| SetAborted.

(** The closure [getBody] hands to [res.onData]. *)
Inductive DataHandler : Type :=
| WriteToBridge.

Module uWS.

(** What [res.end] takes: a string, a typed array, or nothing. *)
Inductive RecognizedString : Type :=
| RString (s : string)
| RBytes (b : list byte).

Inductive WriteOp : Type :=
| WriteStatus (status : string)
| WriteHeader (key value : string)
| End (body : option RecognizedString).

(** An [HttpResponse] holds one data handler and one abort handler:
    [onData] and [onAborted] store the handler they are given in the
    response's slot, so a later registration takes the place of an
    earlier one.  [written] is the sequence of write calls so far. *)
Record HttpResponse := {
  dataHandler : option DataHandler;
  abortedHandler : option AbortedHandler;
  written : list WriteOp
}.

Definition fresh : HttpResponse :=
  {| dataHandler := None; abortedHandler := None; written := [] |}.

Definition onData (res : HttpResponse) (h : DataHandler) : HttpResponse :=
  {| dataHandler := Some h; abortedHandler := abortedHandler res;
     written := written res |}.

Definition onAborted (res : HttpResponse) (h : AbortedHandler)
  : HttpResponse :=
  {| dataHandler := dataHandler res; abortedHandler := Some h;
     written := written res |}.

Definition write (res : HttpResponse) (op : WriteOp) : HttpResponse :=
  {| dataHandler := dataHandler res; abortedHandler := abortedHandler res;
     written := written res ++ [op] |}.

Definition writeStatus res s := write res (WriteStatus s).
Definition writeHeader res k v := write res (WriteHeader k v).
Definition end_ res body := write res (End body).

(** What goes on the wire for each call: [end] sends the bytes of its
    argument, none when it has no argument. *)
Inductive WireItem : Type :=
| StatusLine (status : string)
| HeaderLine (key value : string)
| Body (bytes : list byte).

Definition end_bytes (body : option RecognizedString) : list byte :=
  match body with
  | None => []
  | Some (RString s) => utf8_encode s
  | Some (RBytes b) => b
  end.

Definition wire_item (op : WriteOp) : WireItem :=
  match op with
  | WriteStatus s => StatusLine s
  | WriteHeader k v => HeaderLine k v
  | End body => Body (end_bytes body)
  end.

Definition wire (res : HttpResponse) : list WireItem :=
  map wire_item (written res).

End uWS.

(* ====================================================================== *)
(** ** Lightweight response                                               *)
(* ====================================================================== *)

Inductive CacheHeaders : Type :=
| CHeaders (h : Headers)
| CRecord (r : list (string * string)).

(** [ResponseCache]: the triple [status, body, headers]. *)
Definition ResponseCache : Type := (Z * BodyInit * CacheHeaders)%type.

Record LightweightResponse := {
  body_ : option BodyInit;             (* #body *)
  init_ : option ResponseInit;         (* #init *)
  responseCache : option Response;
  cacheKey : option ResponseCache
}.

(** The test of the constructor: [null], [undefined], a string, an object
    with [getReader], a [Blob] or a [Uint8Array]. *)
Definition cacheable (body : option BodyInit) : bool :=
  match body with
  | None => true
  | Some (BString _) => true
  | Some (BReadableStream _) => true
  | Some (BBlob _ _) => true
  | Some (BUint8Array _) => true
  | Some (BArrayBuffer _) | Some (BURLSearchParams _) => false
  end.

(** The [headers] local of the constructor.  For an array of pairs the
    source calls [new Headers] on the spot; the local is given here for
    pairs that [Headers] accepts (on others that call throws its
    [TypeError] and no response is constructed). *)
Definition captured_headers (init : option ResponseInit) : CacheHeaders :=
  match init with
  | Some i =>
      match init_headers i with
      | Some (InitHeaders h) => CHeaders h
      | Some (InitArray l) => CHeaders (new_Headers l)
      | Some (InitRecord r) => CRecord r
      | None => CRecord []
      end
  | None => CRecord []
  end.

(** [init?.status || 200]. *)
Definition captured_status (init : option ResponseInit) : Z :=
  match init with
  | Some i =>
      match init_status i with
      | Some n => if (n =? 0)%Z then 200%Z else n
      | None => 200%Z
      end
  | None => 200%Z
  end.

(** [new LightweightResponse(body, init)]. *)
Definition new_LightweightResponse (body : option BodyInit)
    (init : option ResponseInit) : LightweightResponse :=
  {| body_ := body;
     init_ := init;
     responseCache := None;
     cacheKey :=
       if cacheable body
       then Some (captured_status init,
                  match body with Some b => b | None => BString "" end,
                  captured_headers init)
       else None |}.

(** [this[getResponseCache]()]: drops the triple, then builds the native
    response once. *)
Definition getResponseCache (r : LightweightResponse)
  : Completion Response * LightweightResponse :=
  match responseCache r with
  | Some n =>
      (Normal n, {| body_ := body_ r; init_ := init_ r;
                    responseCache := Some n; cacheKey := None |})
  | None =>
      match new_Response (body_ r) (init_ r) with
      | Normal n =>
          (Normal n, {| body_ := body_ r; init_ := init_ r;
                        responseCache := Some n; cacheKey := None |})
      | Throw e =>
          (Throw e, {| body_ := body_ r; init_ := init_ r;
                       responseCache := None; cacheKey := None |})
      end
  end.

(** [get headers()]. *)
Definition LightweightResponse_headers (r : LightweightResponse)
  : Completion Headers * LightweightResponse :=
  match cacheKey r with
  | Some (st, b, ch) =>
      let converted := match ch with
                       | CHeaders h => Normal h
                       | CRecord rec => construct_Headers rec
                       end in
      match converted with
      | Normal h =>
          (Normal h, {| body_ := body_ r; init_ := init_ r;
                        responseCache := responseCache r;
                        cacheKey := Some (st, b, CHeaders h) |})
      | Throw e => (Throw e, r)
      end
  | None =>
      match getResponseCache r with
      | (Normal n, r') => (Normal (rsp_headers n), r')
      | (Throw e, r') => (Throw e, r')
      end
  end.

(** [get status()]. *)
Definition LightweightResponse_status (r : LightweightResponse)
  : Completion Z * LightweightResponse :=
  match cacheKey r with
  | Some (st, _, _) => (Normal st, r)
  | None =>
      match getResponseCache r with
      | (Normal n, r') => (Normal (rsp_status n), r')
      | (Throw e, r') => (Throw e, r')
      end
  end.

(** The proxied body methods: the call goes to the native response, which
    is kept with its body marked used. *)
Definition LightweightResponse_consume {A : Type}
    (method : Response -> Completion A * Response) (r : LightweightResponse)
  : Completion A * LightweightResponse :=
  match getResponseCache r with
  | (Normal n, r') =>
      let '(v, n') := method n in
      (v, {| body_ := body_ r'; init_ := init_ r';
             responseCache := Some n'; cacheKey := cacheKey r' |})
  | (Throw e, r') => (Throw e, r')
  end.

Definition LightweightResponse_text :=
  LightweightResponse_consume Response_text.
Definition LightweightResponse_arrayBuffer :=
  LightweightResponse_consume Response_arrayBuffer.

(** What the application hands back: a native response (when the global
    constructors are left alone) or a lightweight one. *)
Inductive HonoResponse : Type :=
| NativeResponse (n : Response)
| Lightweight (r : LightweightResponse).

Definition response_headers (r : HonoResponse)
  : Completion Headers * HonoResponse :=
  match r with
  | NativeResponse n => (Normal (rsp_headers n), r)
  | Lightweight l =>
      let '(v, l') := LightweightResponse_headers l in (v, Lightweight l')
  end.

Definition response_status (r : HonoResponse) : Completion Z * HonoResponse :=
  match r with
  | NativeResponse n => (Normal (rsp_status n), r)
  | Lightweight l =>
      let '(v, l') := LightweightResponse_status l in (v, Lightweight l')
  end.

Definition response_text (r : HonoResponse)
  : Completion string * HonoResponse :=
  match r with
  | NativeResponse n =>
      let '(v, n') := Response_text n in (v, NativeResponse n')
  | Lightweight l =>
      let '(v, l') := LightweightResponse_text l in (v, Lightweight l')
  end.

Definition response_arrayBuffer (r : HonoResponse)
  : Completion (list byte) * HonoResponse :=
  match r with
  | NativeResponse n =>
      let '(v, n') := Response_arrayBuffer n in (v, NativeResponse n')
  | Lightweight l =>
      let '(v, l') := LightweightResponse_arrayBuffer l in (v, Lightweight l')
  end.

(** [cacheKey in honoResponse], followed by the read of the property. *)
Definition response_cache (r : HonoResponse) : option ResponseCache :=
  match r with
  | NativeResponse _ => None
  | Lightweight l => cacheKey l
  end.

(* ====================================================================== *)
(** ** Lazy request                                                       *)
(* ====================================================================== *)

(** The readable side of the connection's body bridge; a connection has
    at most one, so the handle carries no further data. *)
Inductive BodyHandle : Type :=
| BridgeReadable.

(** A reference to a materialized request object. *)
Abbreviation Ref := nat.

Record LazyRequest := {
  methodKey : string;
  urlKey : string;
  headersDataKey : list (string * string);
  bodyKey : option BodyHandle;
  headersKey : option Headers;
  requestCacheKey : option Ref
}.

(** [createLazyRequest(method, url, headersData, body)]. *)
Definition createLazyRequest (method url : string)
    (headersData : list (string * string)) (body : option BodyHandle)
  : LazyRequest :=
  {| methodKey := method; urlKey := url; headersDataKey := headersData;
     bodyKey := body; headersKey := None; requestCacheKey := None |}.

(* ====================================================================== *)
(** ** Response writer                                                    *)
(* ====================================================================== *)

(** [writeHeaders(res, headers)]: [forEach] for a [Headers] instance,
    [for ... in] over the record otherwise. *)
Definition writeHeaders (res : uWS.HttpResponse) (headers : CacheHeaders)
  : uWS.HttpResponse :=
  match headers with
  | CHeaders h =>
      fold_left (fun res kv => uWS.writeHeader res (fst kv) (snd kv))
                (Headers_entries h) res
  | CRecord r =>
      fold_left (fun res kv => uWS.writeHeader res (fst kv) (snd kv)) r res
  end.

(** [writeResponseViaCache(res, cache, aborted)]. *)
Definition writeResponseViaCache (res : uWS.HttpResponse)
    (cache : ResponseCache) (aborted : bool) : bool * uWS.HttpResponse :=
  if aborted then (true, res)
  else
    let '(status, body, headers) := cache in
    match body with
    | BString s =>
        (true,
         uWS.end_
           (writeHeaders (uWS.writeStatus res (Number_toString status)) headers)
           (Some (uWS.RString s)))
    | BUint8Array b =>
        (true,
         uWS.end_
           (writeHeaders (uWS.writeStatus res (Number_toString status)) headers)
           (Some (uWS.RBytes b)))
    | BReadableStream _ | BBlob _ _ | BArrayBuffer _ | BURLSearchParams _ =>
        (false, res)
    end.

(** The content-type test of [writeResponseAsync]. *)
Definition sniffs_as_text (contentType : option string) : bool :=
  match contentType with
  | None => false
  | Some ct =>
      negb (String.eqb ct "") &&
      (startsWith ct "text/" ||
       startsWith ct "application/json" ||
       includes ct "+json")
  end.

(** [writeResponseAsync] suspended at one of its two [await]s: the status
    read before, the response as the call left it, and the promise. *)
Inductive Suspended : Type :=
| AwaitText (status : Z) (honoResponse : HonoResponse) (p : Completion string)
| AwaitArrayBuffer (status : Z) (honoResponse : HonoResponse)
    (p : Completion (list byte)).

Inductive AsyncOutcome : Type :=
| Returned (res : uWS.HttpResponse)
| Rejected (e : string) (res : uWS.HttpResponse)
| Suspend (s : Suspended).

(** [writeResponseAsync(res, honoResponse, aborted)] up to its [await];
    [aborted] is what [aborted()] returns at that time. *)
Definition writeResponseAsync_start (res : uWS.HttpResponse)
    (honoResponse : HonoResponse) (aborted : bool) : AsyncOutcome :=
  if aborted then Returned res
  else
    match response_headers honoResponse with
    | (Throw e, _) => Rejected e res
    | (Normal h, r1) =>
        let contentType := Headers_get h "content-type" in
        match response_status r1 with
        | (Throw e, _) => Rejected e res
        | (Normal status, r2) =>
            if sniffs_as_text contentType
            then let '(p, r3) := response_text r2 in
                 Suspend (AwaitText status r3 p)
            else let '(p, r3) := response_arrayBuffer r2 in
                 Suspend (AwaitArrayBuffer status r3 p)
        end
    end.

(** The writes inside [res.cork] up to the body. *)
Definition write_head (res : uWS.HttpResponse) (status : Z)
    (honoResponse : HonoResponse)
  : Completion uWS.HttpResponse * uWS.HttpResponse :=
  let res1 := uWS.writeStatus res (Number_toString status) in
  match response_headers honoResponse with
  | (Throw e, _) => (Throw e, res1)
  | (Normal h, _) =>
      let res2 := fold_left
                    (fun res kv => uWS.writeHeader res (fst kv) (snd kv))
                    (Headers_entries h) res1 in
      (Normal res2, res2)
  end.

(** The continuation after the [await]; [aborted] is what [aborted()]
    returns when the continuation runs. *)
Definition writeResponseAsync_resume (res : uWS.HttpResponse)
    (s : Suspended) (aborted : bool) : AsyncOutcome :=
  match s with
  | AwaitText status honoResponse p =>
      match p with
      | Throw e => Rejected e res
      | Normal text =>
          if aborted then Returned res
          else
            match write_head res status honoResponse with
            | (Throw e, res') => Rejected e res'
            | (Normal res', _) =>
                Returned (uWS.end_ res' (Some (uWS.RString text)))
            end
      end
  | AwaitArrayBuffer status honoResponse p =>
      match p with
      | Throw e => Rejected e res
      | Normal responseBody =>
          if aborted then Returned res
          else
            match write_head res status honoResponse with
            | (Throw e, res') => Rejected e res'
            | (Normal res', _) =>
                if (0 <? length responseBody)%nat
                then Returned (uWS.end_ res' (Some (uWS.RBytes responseBody)))
                else Returned (uWS.end_ res' None)
            end
      end
  end.

(* ====================================================================== *)
(** ** Body stream bridge                                                 *)
(* ====================================================================== *)

Inductive StreamState : Type :=
| Writable
| Closed
| Errored.

(** The [TransformStream] of [getBody]: the chunks written and not yet
    read, and the state of the stream. *)
Record TransformStream := {
  queue : list (list byte);
  state : StreamState
}.

Definition new_TransformStream : TransformStream :=
  {| queue := []; state := Writable |}.

Definition writer_write (t : TransformStream) (chunk : list byte)
  : TransformStream :=
  match state t with
  | Writable => {| queue := queue t ++ [chunk]; state := Writable |}
  | _ => t
  end.

Definition writer_close (t : TransformStream) : TransformStream :=
  match state t with
  | Writable => {| queue := queue t; state := Closed |}
  | _ => t
  end.

Definition writer_abort (t : TransformStream) : TransformStream :=
  match state t with
  | Writable => {| queue := []; state := Errored |}
  | _ => t
  end.

(** What a read on the readable side gets. *)
Inductive ReadResult : Type :=
| ReadChunk (chunk : list byte)
| ReadDone
| ReadError
| ReadPending.

Definition reader_read (t : TransformStream) : ReadResult :=
  match state t, queue t with
  | Errored, _ => ReadError
  | _, c :: _ => ReadChunk c
  | Closed, [] => ReadDone
  | Writable, [] => ReadPending
  end.

(** [getBody(res)]: a new stream, the data handler and the abort handler
    registered on [res]. *)
Definition getBody (res : uWS.HttpResponse)
  : TransformStream * uWS.HttpResponse :=
  (new_TransformStream,
   uWS.onAborted (uWS.onData res WriteToBridge) AbortWriter).

(* ====================================================================== *)
(** ** The request handler of [createUwsServer]                           *)
(* ====================================================================== *)

(** What the handler reads from the transport's request object. *)
Record HttpRequest := {
  getMethod : string;
  getUrl : string;
  getQuery : string;
  forEach : list (string * string)
}.

(** [req.getHeader(name)]: the value, or the empty string. *)
Definition getHeader (req : HttpRequest) (name : string) : string :=
  match List.find (fun kv => String.eqb (fst kv) name) (forEach req) with
  | Some kv => snd kv
  | None => ""
  end.

Definition urlString (protocol : string) (req : HttpRequest) : string :=
  if String.eqb (getQuery req) ""
  then protocol +:+ "://" +:+ getHeader req "host" +:+ getUrl req
  else protocol +:+ "://" +:+ getHeader req "host" +:+ getUrl req
       +:+ "?" +:+ getQuery req.

(** What [app.fetch(request)] does: returns a response, returns a promise
    (settled later), or throws. *)
Inductive FetchResult : Type :=
| FetchResponse (r : HonoResponse)
| FetchPromise
| FetchThrows (e : string).

(** Where the handling of a request stands. *)
Inductive Continuation : Type :=
| Settled
| AwaitFetch
| AwaitBody (s : Suspended).

Record Connection := {
  res : uWS.HttpResponse;
  aborted : bool;
  bodyStream : option TransformStream;
  request : LazyRequest;
  continuation : Continuation;
  uncaught : list string
}.

(** [writeResponseAsync(res, response, () => aborted)], called and not
    awaited: its outcome as the next state of the connection. *)
Definition after_async (c : Connection) (o : AsyncOutcome) : Connection :=
  match o with
  | Returned res' =>
      {| res := res'; aborted := aborted c; bodyStream := bodyStream c;
         request := request c; continuation := Settled;
         uncaught := uncaught c |}
  | Rejected e res' =>
      {| res := res'; aborted := aborted c; bodyStream := bodyStream c;
         request := request c; continuation := Settled;
         uncaught := uncaught c ++ [e] |}
  | Suspend s =>
      {| res := res c; aborted := aborted c; bodyStream := bodyStream c;
         request := request c; continuation := AwaitBody s;
         uncaught := uncaught c |}
  end.

(** The part shared by the synchronous branch and the [then] callback:
    try the fast path on the response's triple, else the async path. *)
Definition write_response (c : Connection) (response : HonoResponse)
  : Connection :=
  let fast := match response_cache response with
              | Some cache => writeResponseViaCache (res c) cache (aborted c)
              | None => (false, res c)
              end in
  if fst fast
  then {| res := snd fast; aborted := aborted c; bodyStream := bodyStream c;
          request := request c; continuation := Settled;
          uncaught := uncaught c |}
  else after_async c (writeResponseAsync_start (res c) response (aborted c)).

Definition has_no_body (method : string) : bool :=
  String.eqb method "GET" || String.eqb method "HEAD" ||
  String.eqb method "OPTIONS".

(** The callback of [uwsApp.any("/*", ...)] up to its return. *)
Definition any (app : LazyRequest -> FetchResult) (protocol : string)
    (res0 : uWS.HttpResponse) (req : HttpRequest) : Connection :=
  let method := toUpperCase (getMethod req) in
  let headersData := forEach req in
  let url := urlString protocol req in
  let '(body, stream, res1) :=
    if has_no_body method
    then (None, None, res0)
    else let '(t, r) := getBody res0 in (Some BridgeReadable, Some t, r) in
  let res2 := uWS.onAborted res1 SetAborted in
  let request := createLazyRequest method url headersData body in
  let c := {| res := res2; aborted := false; bodyStream := stream;
              request := request; continuation := Settled;
              uncaught := [] |} in
  match app request with
  | FetchThrows e =>
      {| res := res2; aborted := false; bodyStream := stream;
         request := request; continuation := Settled; uncaught := [e] |}
  | FetchResponse honoResponse => write_response c honoResponse
  | FetchPromise =>
      {| res := res2; aborted := false; bodyStream := stream;
         request := request; continuation := AwaitFetch; uncaught := [] |}
  end.

(** What happens to a connection after the callback has returned. *)
Inductive Event : Type :=
| Abort                                      (* the transport reports abort *)
| Data (chunk : list byte) (isLast : bool)   (* a body chunk arrives *)
| FetchSettles (p : Completion HonoResponse) (* the application's promise *)
| BodySettles.                               (* the awaited body promise *)

Definition run_aborted (c : Connection) : Connection :=
  match uWS.abortedHandler (res c) with
  | Some AbortWriter =>
      {| res := res c; aborted := aborted c;
         bodyStream := option_map writer_abort (bodyStream c);
         request := request c; continuation := continuation c;
         uncaught := uncaught c |}
  | Some SetAborted =>
      {| res := res c; aborted := true; bodyStream := bodyStream c;
         request := request c; continuation := continuation c;
         uncaught := uncaught c |}
  | None => c
  end.

Definition run_data (c : Connection) (chunk : list byte) (isLast : bool)
  : Connection :=
  match uWS.dataHandler (res c) with
  | Some WriteToBridge =>
      let write t :=
        let t' := writer_write t chunk in
        if isLast then writer_close t' else t' in
      {| res := res c; aborted := aborted c;
         bodyStream := option_map write (bodyStream c);
         request := request c; continuation := continuation c;
         uncaught := uncaught c |}
  | None => c
  end.

Definition step (c : Connection) (ev : Event) : Connection :=
  match ev with
  | Abort => run_aborted c
  | Data chunk isLast => run_data c chunk isLast
  | FetchSettles p =>
      match continuation c with
      | AwaitFetch =>
          match p with
          | Throw e =>
              {| res := res c; aborted := aborted c;
                 bodyStream := bodyStream c; request := request c;
                 continuation := Settled; uncaught := uncaught c ++ [e] |}
          | Normal response =>
              if aborted c
              then {| res := res c; aborted := aborted c;
                      bodyStream := bodyStream c; request := request c;
                      continuation := Settled; uncaught := uncaught c |}
              else write_response c response
          end
      | _ => c
      end
  | BodySettles =>
      match continuation c with
      | AwaitBody s =>
          after_async c (writeResponseAsync_resume (res c) s (aborted c))
      | _ => c
      end
  end.

Definition run (c : Connection) (evs : list Event) : Connection :=
  fold_left step evs c.

(* ====================================================================== *)
(** ** Materialization of a lazy request                                  *)
(* ====================================================================== *)

(** A full request object: what the constructor was given, and whether
    its body has been consumed. *)
Record RequestObject := {
  ro_url : string;
  ro_method : string;
  ro_headers : list (string * string);
  ro_body : option BodyHandle;
  ro_duplex : option string;
  ro_bodyUsed : bool
}.

(** The objects built so far (a reference is an index) and the number of
    times the body stream of the connection has been read. *)
Record Heap := {
  objects : list RequestObject;
  bodyReads : nat
}.

Definition use_body (o : RequestObject) : RequestObject :=
  {| ro_url := ro_url o; ro_method := ro_method o;
     ro_headers := ro_headers o; ro_body := ro_body o;
     ro_duplex := ro_duplex o; ro_bodyUsed := true |}.

(** What can be done with a lazy request through [requestPrototype]. *)
Inductive RequestOp : Type :=
| ReadMethod
| ReadUrl
| ReadHeaders
| Promote                  (* [getRequestCache]() *)
| ReadBodyUsed             (* a proxied property *)
| ConsumeBody.             (* [arrayBuffer], [blob], [json], [text], ... *)

Inductive OpValue : Type :=
| VString (s : string)
| VHeaders (h : Headers)
| VRef (r : Ref)
| VBool (b : bool)
| VConsumed
| VThrow (e : string).

Section Materialization.

(** The native [Request] constructor throws on some arguments (a
    forbidden method, a URL that does not parse); [rejects] says on
    which. *)
Variable rejects : RequestObject -> option string.

(** [new LightweightRequest(input, options)] for a string [input]:
    [duplex] is set to ["half"] when the body is a stream. *)
Definition new_LightweightRequest (url method : string)
    (headers : list (string * string)) (body : option BodyHandle)
    (h : Heap) : Completion Ref * Heap :=
  let o := {| ro_url := url; ro_method := method; ro_headers := headers;
              ro_body := body;
              ro_duplex := match body with
                           | Some _ => Some "half"
                           | None => None
                           end;
              ro_bodyUsed := false |} in
  match rejects o with
  | Some e => (Throw e, h)
  | None =>
      (Normal (length (objects h)),
       {| objects := objects h ++ [o]; bodyReads := bodyReads h |})
  end.

(** [requestPrototype[getRequestCache]]. *)
Definition getRequestCache (self : LazyRequest) (h : Heap)
  : Completion Ref * LazyRequest * Heap :=
  match requestCacheKey self with
  | Some r => (Normal r, self, h)
  | None =>
      match new_LightweightRequest (urlKey self) (methodKey self)
              (headersDataKey self) (bodyKey self) h with
      | (Normal r, h') =>
          (Normal r,
           {| methodKey := methodKey self; urlKey := urlKey self;
              headersDataKey := headersDataKey self;
              bodyKey := bodyKey self; headersKey := headersKey self;
              requestCacheKey := Some r |},
           h')
      | (Throw e, h') => (Throw e, self, h')
      end
  end.

(** [get headers()] of the prototype. *)
Definition LazyRequest_headers (self : LazyRequest)
  : Completion Headers * LazyRequest :=
  match headersKey self with
  | Some hs => (Normal hs, self)
  | None =>
      match construct_Headers (headersDataKey self) with
      | Normal hs =>
          (Normal hs,
           {| methodKey := methodKey self; urlKey := urlKey self;
              headersDataKey := headersDataKey self;
              bodyKey := bodyKey self; headersKey := Some hs;
              requestCacheKey := requestCacheKey self |})
      | Throw e => (Throw e, self)
      end
  end.

(** A body method of the full object: nothing to read without a body,
    a [TypeError] for a used body, else the stream is read. *)
Definition consume (r : Ref) (h : Heap) : OpValue * Heap :=
  match objects h !! r with
  | None => (VThrow "TypeError", h)
  | Some o =>
      match ro_body o with
      | None => (VConsumed, h)
      | Some _ =>
          if ro_bodyUsed o then (VThrow "TypeError", h)
          else (VConsumed,
                {| objects := <[r := use_body o]> (objects h);
                   bodyReads := S (bodyReads h) |})
      end
  end.

Definition perform (op : RequestOp) (self : LazyRequest) (h : Heap)
  : OpValue * LazyRequest * Heap :=
  match op with
  | ReadMethod => (VString (methodKey self), self, h)
  | ReadUrl => (VString (urlKey self), self, h)
  | ReadHeaders =>
      match LazyRequest_headers self with
      | (Normal hs, self') => (VHeaders hs, self', h)
      | (Throw e, self') => (VThrow e, self', h)
      end
  | Promote =>
      match getRequestCache self h with
      | (Normal r, self', h') => (VRef r, self', h')
      | (Throw e, self', h') => (VThrow e, self', h')
      end
  | ReadBodyUsed =>
      match getRequestCache self h with
      | (Normal r, self', h') =>
          (match objects h' !! r with
           | Some o => VBool (ro_bodyUsed o)
           | None => VThrow "TypeError"
           end, self', h')
      | (Throw e, self', h') => (VThrow e, self', h')
      end
  | ConsumeBody =>
      match getRequestCache self h with
      | (Normal r, self', h') =>
          let '(v, h'') := consume r h' in (v, self', h'')
      | (Throw e, self', h') => (VThrow e, self', h')
      end
  end.

(** A sequence of operations, with the value of each. *)
Fixpoint perform_all (ops : list RequestOp) (self : LazyRequest) (h : Heap)
  : list OpValue * LazyRequest * Heap :=
  match ops with
  | [] => ([], self, h)
  | op :: ops' =>
      let '(v, self', h') := perform op self h in
      let '(vs, self'', h'') := perform_all ops' self' h' in
      (v :: vs, self'', h'')
  end.

End Materialization.

(* ====================================================================== *)
(** ** WebSocket sessions                                                 *)
(* ====================================================================== *)

Inductive Payload : Type :=
| TextData (s : string)
| BinaryData (b : list byte).

(** Calls on the transport's socket [ws]. *)
Inductive WsCall : Type :=
| WsSend (data : Payload) (isBinary compress : bool)
| WsEnd (code : option Z) (reason : option string).

(** Calls a callback makes on the [WSContext] it is given. *)
Inductive ContextCall : Type :=
| CtxSend (data : Payload) (isBinary compress : option bool)
| CtxClose (code : option Z) (reason : option string).

(** [createWSContext(ws)]: [send] defaults both flags to [false] and
    calls [ws.send]; [close] calls [ws.end]. *)
Definition createWSContext (call : ContextCall) : WsCall :=
  match call with
  | CtxSend data isBinary compress =>
      WsSend data (default false isBinary) (default false compress)
  | CtxClose code reason => WsEnd code reason
  end.

(** A callback of the application: the calls it makes on its context,
    and the error it throws, if any, after them. *)
Definition Callback (A : Type) : Type := A -> list ContextCall * option string.

Record CloseEvent := {
  code : Z;
  reason : string
}.

Record WSEvents := {
  onOpen : option (Callback unit);
  onMessage : option (Callback Payload);
  onClose : option (Callback CloseEvent);
  onError : option (Callback unit)
}.

(** The context handed to a handler factory: [req.url], the header pairs
    behind [req.header], and [req.raw]. *)
Record Context := {
  ctx_url : string;
  ctx_headers : list (string * string);
  ctx_raw : LazyRequest
}.

Definition WSHandler : Type := Context -> Completion WSEvents.

Record WebSocketData := {
  url : string;
  headers : list (string * string);
  events : option WSEvents;
  context : option Context
}.

Inductive CallbackName : Type :=
| OnOpen
| OnMessage
| OnClose
| OnError.

(** A session: the user data of the socket, the calls made on the
    socket, what was written with [console.error], the callbacks invoked
    and the synthetic requests sent to the application. *)
Record Session := {
  data : WebSocketData;
  calls : list WsCall;
  console : list string;
  invoked : list CallbackName;
  fetched : list LazyRequest
}.

Definition ws_call (s : Session) (c : WsCall) : Session :=
  {| data := data s; calls := calls s ++ [c]; console := console s;
     invoked := invoked s; fetched := fetched s |}.

Definition ws_end (s : Session) (code : Z) (reason : string) : Session :=
  ws_call s (WsEnd (Some code) (Some reason)).

Definition console_error (s : Session) (msg : string) : Session :=
  {| data := data s; calls := calls s; console := console s ++ [msg];
     invoked := invoked s; fetched := fetched s |}.

(** Invoking a callback: it is recorded, its calls reach the socket
    through the context, and it returns or throws. *)
Definition invoke {A : Type} (name : CallbackName) (cb : Callback A) (arg : A)
    (s : Session) : Completion unit * Session :=
  let '(ctx_calls, thrown) := cb arg in
  let s' := {| data := data s;
               calls := calls s ++ map createWSContext ctx_calls;
               console := console s;
               invoked := invoked s ++ [name];
               fetched := fetched s |} in
  match thrown with
  | Some e => (Throw e, s')
  | None => (Normal tt, s')
  end.

Section UpgradeBridge.

(** [new URL(u).pathname], which throws when [u] does not parse. *)
Variable pathname : string -> Completion string.

(** The application: the response it gives to a request, and what it
    leaves in [wsHandlers] (a route declared with [upgradeWebSocket]
    registers its handler there). *)
Variable app :
  LazyRequest -> gmap string WSHandler ->
  Completion HonoResponse * gmap string WSHandler.

(** The [catch] block of [open]. *)
Definition open_catch (error : string) (s : Session) : Session :=
  ws_end (console_error s ("WebSocket handler error: " +:+ error))
         1011 "Internal Error".

(** From the handler on: the second half of the [try] block. *)
Definition open_with_handler (handler : WSHandler) (s : Session)
  : Session :=
  let d := data s in
  let request := createLazyRequest "GET" (url d) (headers d) None in
  let mockContext := {| ctx_url := url d; ctx_headers := headers d;
                        ctx_raw := request |} in
  match handler mockContext with
  | Throw e => open_catch e s
  | Normal evs =>
      let s1 := {| data := {| url := url d; headers := headers d;
                              events := Some evs;
                              context := Some mockContext |};
                   calls := calls s; console := console s;
                   invoked := invoked s; fetched := fetched s |} in
      match onOpen evs with
      | None => s1
      | Some cb =>
          match invoke OnOpen cb tt s1 with
          | (Throw e, s2) => open_catch e s2
          | (Normal _, s2) => s2
          end
      end
  end.

(** The [open] callback: the session and the registry after it, and
    whether its promise is fulfilled or rejected. *)
Definition open (s : Session) (wsHandlers : gmap string WSHandler)
  : Completion unit * Session * gmap string WSHandler :=
  match pathname (url (data s)) with
  | Throw e => (Throw e, s, wsHandlers)
  | Normal path =>
      match wsHandlers !! path with
      | Some handler =>
          (Normal tt, open_with_handler handler s, wsHandlers)
      | None =>
          let request :=
            createLazyRequest "GET" (url (data s)) (headers (data s)) None in
          let s1 := {| data := data s; calls := calls s;
                       console := console s; invoked := invoked s;
                       fetched := fetched s ++ [request] |} in
          match app request wsHandlers with
          | (Throw e, wsHandlers') =>
              (Normal tt, open_catch e s1, wsHandlers')
          | (Normal response, wsHandlers') =>
              match fst (response_status response) with
              | Throw e => (Normal tt, open_catch e s1, wsHandlers')
              | Normal status =>
                  if negb (status =? 101)%Z
                  then (Normal tt, ws_end s1 1008 "Not Found", wsHandlers')
                  else
                    match wsHandlers' !! path with
                    | None =>
                        (Normal tt, ws_end s1 1008 "Not Found", wsHandlers')
                    | Some handler =>
                        (Normal tt, open_with_handler handler s1,
                         wsHandlers')
                    end
              end
          end
      end
  end.

(** The [message] callback. *)
Definition message (s : Session) (msg : list byte) (isBinary : bool)
  : Completion unit * Session :=
  match events (data s) with
  | Some evs =>
      match onMessage evs with
      | Some cb =>
          let messageData :=
            if isBinary then BinaryData msg else TextData (utf8_decode msg) in
          invoke OnMessage cb messageData s
      | None => (Normal tt, s)
      end
  | None => (Normal tt, s)
  end.

(** The [close] callback. *)
Definition close (s : Session) (code : Z) (msg : list byte)
  : Completion unit * Session :=
  match events (data s) with
  | Some evs =>
      match onClose evs with
      | Some cb =>
          invoke OnClose cb
                 {| code := code; reason := utf8_decode msg |} s
      | None => (Normal tt, s)
      end
  | None => (Normal tt, s)
  end.

End UpgradeBridge.



(* ====================================================================== *)
(** ** Notions used by the statements                                     *)
(* ====================================================================== *)

(** The async path on a connection that stays live: the part before the
    [await], then the continuation. *)
Definition writeResponseAsync (res : uWS.HttpResponse)
    (honoResponse : HonoResponse) : AsyncOutcome :=
  match writeResponseAsync_start res honoResponse false with
  | Suspend s => writeResponseAsync_resume res s false
  | o => o
  end.

(** The response held by an outcome ([r] itself while suspended). *)
Definition outcome_res (r : uWS.HttpResponse) (o : AsyncOutcome)
  : uWS.HttpResponse :=
  match o with
  | Returned r' | Rejected _ r' => r'
  | Suspend _ => r
  end.

(** The header collection a triple stands for ([get headers()] turns a
    record into a [Headers] instance). *)
Definition headers_of_cache (ch : CacheHeaders) : Headers :=
  match ch with
  | CHeaders h => h
  | CRecord r => new_Headers r
  end.

(** [init?.status] and [init?.headers]. *)
Definition init_status_of (init : option ResponseInit) : option Z :=
  match init with
  | Some i => init_status i
  | None => None
  end.

Definition init_headers_of (init : option ResponseInit)
  : option HeadersInit :=
  match init with
  | Some i => init_headers i
  | None => None
  end.

(** A record lists its headers the way the collection built from it
    iterates them: lower-case names in sorted order, one entry a name,
    values without surrounding whitespace. *)
Definition in_iteration_form (ch : CacheHeaders) : Prop :=
  match ch with
  | CHeaders _ => True
  | CRecord r => Headers_entries (new_Headers r) = r
  end.

(** The bytes of a text or byte body. *)
Definition simple_body_bytes (body : BodyInit) : option (list byte) :=
  match body with
  | BString s => Some (utf8_encode s)
  | BUint8Array b => Some b
  | _ => None
  end.

(** Whether the async path resolves the body as text, or as raw bytes. *)
Definition resolves_as_text (o : AsyncOutcome) : bool :=
  match o with
  | Suspend (AwaitText _ _ _) => true
  | _ => false
  end.

Definition resolves_as_bytes (o : AsyncOutcome) : bool :=
  match o with
  | Suspend (AwaitArrayBuffer _ _ _) => true
  | _ => false
  end.

(** The rule for text resolution in the words of the specification:
    starts with [text/], contains [application/json], or ends with
    [+json]; bytes for anything else, an absent type included. *)
Definition spec_text_rule (contentType : option string) : bool :=
  match contentType with
  | None => false
  | Some ct =>
      startsWith ct "text/" || includes ct "application/json" ||
      endsWith ct "+json"
  end.


(** Two states of a response with the same handlers in their slots. *)
Definition same_handlers (r1 r2 : uWS.HttpResponse) : Prop :=
  uWS.dataHandler r2 = uWS.dataHandler r1 /\
  uWS.abortedHandler r2 = uWS.abortedHandler r1.

Section Reachability.

Variable rejects : RequestObject -> option string.
Variable o : RequestObject.
Variable h0 : Heap.

(** The descriptor still holds what the object [o] is built from. *)
Definition describes (self : LazyRequest) : Prop :=
  urlKey self = ro_url o /\ methodKey self = ro_method o /\
  headersDataKey self = ro_headers o /\ bodyKey self = ro_body o /\
  ro_duplex o = match ro_body o with Some _ => Some "half" | None => None end /\
  ro_bodyUsed o = false.

(** Where a descriptor and the heap can be after any operations: not
    materialized and the heap untouched; materialized once with the
    body unread; materialized once with the body read once. *)
Inductive reachable : LazyRequest -> Heap -> Prop :=
| still_lazy self :
    describes self -> requestCacheKey self = None ->
    reachable self h0
| materialized self h :
    describes self -> rejects o = None ->
    requestCacheKey self = Some (length (objects h0)) ->
    objects h = objects h0 ++ [o] ->
    bodyReads h = bodyReads h0 ->
    reachable self h
| body_read self h :
    describes self -> rejects o = None ->
    requestCacheKey self = Some (length (objects h0)) ->
    objects h = objects h0 ++ [use_body o] ->
    bodyReads h = S (bodyReads h0) ->
    reachable self h.

(** What every promotion gives. *)
Definition promoted : OpValue :=
  match rejects o with
  | Some e => VThrow e
  | None => VRef (length (objects h0))
  end.

End Reachability.

(** A native response with a given content type, for examples. *)
Definition json_response (contentType : string) : HonoResponse :=
  NativeResponse {| rsp_status := 200;
                    rsp_headers := new_Headers [("content-type", contentType)];
                    rsp_body := Some (BString "{}");
                    rsp_bodyUsed := false |}.

(** A callback set whose [onMessage] and [onClose] throw [e], and a
    session on which it is stored, for examples. *)
Definition throwing_events (e : string) : WSEvents :=
  {| onOpen := None;
     onMessage := Some (fun _ => ([], Some e));
     onClose := Some (fun _ => ([], Some e));
     onError := None |}.

Definition session_with (evs : option WSEvents) : Session :=
  {| data := {| url := "http://localhost/ws"; headers := [];
                events := evs; context := None |};
     calls := []; console := []; invoked := []; fetched := [] |}.

(** A POST request, for examples. *)
Definition post_request : HttpRequest :=
  {| getMethod := "post"; getUrl := "/upload"; getQuery := "";
     forEach := [("host", "localhost"); ("content-length", "5")] |}.

(* ====================================================================== *)
(** ** Further operations of the adapter                                  *)
(* ====================================================================== *)

(** The [upgrade] callback: the URL and the header pairs are read from
    the request and handed to [res.upgrade] as the user data of the
    socket; every upgrade request is accepted. *)
Definition upgrade (protocol : string) (req : HttpRequest) : WebSocketData :=
  {| url := urlString protocol req; headers := forEach req;
     events := None; context := None |}.

(** The session of a socket that has just been upgraded. *)
Definition accepted (d : WebSocketData) : Session :=
  {| data := d; calls := []; console := []; invoked := []; fetched := [] |}.

(** Strings of ASCII characters only. *)
Definition is_ascii (s : string) : bool :=
  all_chars (fun c => (N_of_ascii c <? 128)%N) s.

Section MockContext.

(** [String.prototype.toLowerCase]: the Unicode lower-casing of the
    platform.  It is [toLowerCase] on strings of ASCII characters; on
    others it maps further letters and can change the length of the
    string, which is left open here. *)
Variable String_toLowerCase : string -> string.

(** [mockContext.req.header(name)]: the value of the first pair whose
    lower-cased name is the lower-cased name asked for. *)
Definition mock_header (c : Context) (name : string) : option string :=
  match List.find
          (fun kv => String.eqb (String_toLowerCase (fst kv))
                                (String_toLowerCase name))
          (ctx_headers c) with
  | Some found => Some (snd found)
  | None => None
  end.

End MockContext.

(** What the transport delivers to an open session. *)
Inductive WsEvent : Type :=
| Message (msg : list byte) (isBinary : bool)
| CloseNotice (code : Z) (msg : list byte).

(** The transport's dispatch of a sequence of events to the [message]
    and [close] callbacks, up to the first one that throws. *)
Fixpoint dispatch (s : Session) (evs : list WsEvent)
  : Completion unit * Session :=
  match evs with
  | [] => (Normal tt, s)
  | ev :: rest =>
      let r := match ev with
               | Message msg isBinary => message s msg isBinary
               | CloseNotice code msg => close s code msg
               end in
      match r with
      | (Normal _, s') => dispatch s' rest
      | (Throw e, s') => (Throw e, s')
      end
  end.

(** The payload [message] builds for [onMessage]. *)
Definition messageData (msg : list byte) (isBinary : bool) : Payload :=
  if isBinary then BinaryData msg else TextData (utf8_decode msg).

(** Counting the calls of one kind among the writes. *)
Definition is_end (op : uWS.WriteOp) : bool :=
  match op with
  | uWS.End _ => true
  | _ => false
  end.

Definition is_status (op : uWS.WriteOp) : bool :=
  match op with
  | uWS.WriteStatus _ => true
  | _ => false
  end.

Definition count_ends (l : list uWS.WriteOp) : nat :=
  length (List.filter is_end l).

Definition count_statuses (l : list uWS.WriteOp) : nat :=
  length (List.filter is_status l).

(** The writes [after] are the writes [before] followed by at most one
    batch: at most one status and at most one body. *)
Definition one_batch (before after : list uWS.WriteOp) : Prop :=
  exists batch,
    after = before ++ batch /\
    (count_ends batch <= 1)%nat /\ (count_statuses batch <= 1)%nat.

(** The header lines [writeHeaders] writes for the headers of a triple. *)
Definition header_entries (ch : CacheHeaders) : list (string * string) :=
  match ch with
  | CHeaders h => Headers_entries h
  | CRecord r => r
  end.

Definition header_ops (l : list (string * string)) : list uWS.WriteOp :=
  map (fun kv => uWS.WriteHeader (fst kv) (snd kv)) l.

(** The operations on a lazy request that its prototype answers from the
    captured fields. *)
Definition reads_captured_field (op : RequestOp) : bool :=
  match op with
  | ReadMethod | ReadUrl | ReadHeaders => true
  | Promote | ReadBodyUsed | ConsumeBody => false
  end.

(** The body events of a request whose body arrives in the chunks
    [chunks] followed by the final chunk [last]. *)
Definition body_events (chunks : list (list byte)) (last : list byte)
  : list Event :=
  map (fun chunk => Data chunk false) chunks ++ [Data last true].

(* ====================================================================== *)
(** ** Properties of the response writer                                  *)
(* ====================================================================== *)

Lemma same_handlers_refl r : same_handlers r r.
Proof. by split. Qed.

Lemma same_handlers_write r op : same_handlers r (uWS.write r op).
Proof. by split. Qed.

Lemma same_handlers_trans r1 r2 r3 :
  same_handlers r1 r2 -> same_handlers r2 r3 -> same_handlers r1 r3.
Proof. intros [? ?] [? ?]; split; congruence. Qed.

Lemma same_handlers_fold (l : list (string * string)) r :
  same_handlers r
    (fold_left (fun res kv => uWS.writeHeader res (fst kv) (snd kv)) l r).
Proof.
  revert r; induction l as [|kv l IH]; intros r; simpl.
  - apply same_handlers_refl.
  - eapply same_handlers_trans; [|apply IH]. apply same_handlers_write.
Qed.

Lemma same_handlers_writeHeaders r ch : same_handlers r (writeHeaders r ch).
Proof. destruct ch; apply same_handlers_fold. Qed.

Lemma same_handlers_via_cache r cache a :
  same_handlers r (snd (writeResponseViaCache r cache a)).
Proof.
  unfold writeResponseViaCache. destruct a; [apply same_handlers_refl|].
  destruct cache as [[st b] ch].
  destruct b; simpl; try apply same_handlers_refl;
    (eapply same_handlers_trans; [|apply same_handlers_write]);
    (eapply same_handlers_trans; [|apply same_handlers_writeHeaders]);
    apply same_handlers_write.
Qed.

Lemma start_writes_nothing r resp a :
  outcome_res r (writeResponseAsync_start r resp a) = r.
Proof.
  unfold writeResponseAsync_start. destruct a; [done|].
  destruct (response_headers resp) as [[h|e] r1]; [|done].
  destruct (response_status r1) as [[st|e] r2]; [|done].
  destruct (sniffs_as_text _).
  - by destruct (response_text r2).
  - by destruct (response_arrayBuffer r2).
Qed.

Lemma same_handlers_write_head r st resp :
  same_handlers r (snd (write_head r st resp)) /\
  forall r', fst (write_head r st resp) = Normal r' ->
             r' = snd (write_head r st resp).
Proof.
  unfold write_head. destruct (response_headers resp) as [[h|e] r1]; simpl.
  - split; [|by intros ? [= <-]].
    eapply same_handlers_trans; [apply same_handlers_write|].
    apply same_handlers_fold.
  - split; [apply same_handlers_write|done].
Qed.

Lemma same_handlers_resume r s a :
  same_handlers r (outcome_res r (writeResponseAsync_resume r s a)).
Proof.
  destruct s as [st resp [text|e]|st resp [bs|e]]; simpl;
    try apply same_handlers_refl;
    (destruct a; [apply same_handlers_refl|]);
    destruct (same_handlers_write_head r st resp) as [Hs Hn];
    destruct (write_head r st resp) as [[r'|e] r'']; simpl in *;
    try done.
  - specialize (Hn _ eq_refl) as ->.
    eapply same_handlers_trans; [exact Hs|apply same_handlers_write].
  - specialize (Hn _ eq_refl) as ->.
    destruct (0 <? _)%nat; simpl;
      (eapply same_handlers_trans; [exact Hs|apply same_handlers_write]).
Qed.

Lemma resume_aborted_writes_nothing r s :
  outcome_res r (writeResponseAsync_resume r s true) = r.
Proof. by destruct s as [st resp [text|e]|st resp [bs|e]]. Qed.

Lemma after_async_res c o :
  res (after_async c o) = outcome_res (res c) o.
Proof. by destruct o. Qed.

Lemma after_async_aborted c o : aborted (after_async c o) = aborted c.
Proof. by destruct o. Qed.

Lemma write_response_aborted c r : aborted (write_response c r) = aborted c.
Proof.
  unfold write_response. destruct (fst _); [done|apply after_async_aborted].
Qed.

Lemma write_response_handlers c r :
  same_handlers (res c) (res (write_response c r)).
Proof.
  unfold write_response. destruct (response_cache r) as [cache|].
  - pose proof (same_handlers_via_cache (res c) cache (aborted c)) as H.
    destruct (writeResponseViaCache _ _ _) as [[] r']; [exact H|].
    cbn [fst]. rewrite after_async_res, start_writes_nothing.
    apply same_handlers_refl.
  - cbn [fst]. rewrite after_async_res, start_writes_nothing.
    apply same_handlers_refl.
Qed.

Lemma write_response_when_aborted c r :
  aborted c = true -> res (write_response c r) = res c.
Proof.
  intros Ha. unfold write_response. rewrite Ha.
  destruct (response_cache r) as [cache|]; cbn [fst snd].
  - done.
  - by rewrite after_async_res.
Qed.

(** The abort flag is one-way, and once it is set nothing is written. *)
Lemma step_when_aborted c ev :
  aborted c = true ->
  aborted (step c ev) = true /\ res (step c ev) = res c.
Proof.
  intros Ha. destruct ev as [|chunk isLast|p|]; simpl.
  - unfold run_aborted. by destruct (uWS.abortedHandler _) as [[]|].
  - unfold run_data. by destruct (uWS.dataHandler _) as [[]|].
  - destruct (continuation c); try done. destruct p; [|done].
    by rewrite Ha.
  - destruct (continuation c); try done.
    rewrite after_async_aborted, after_async_res, Ha.
    by rewrite resume_aborted_writes_nothing.
Qed.

Lemma run_cons c ev evs : run c (ev :: evs) = run (step c ev) evs.
Proof. done. Qed.

Lemma run_when_aborted evs c :
  aborted c = true ->
  aborted (run c evs) = true /\ res (run c evs) = res c.
Proof.
  revert c; induction evs as [|ev evs IH]; intros c Ha; [done|].
  destruct (step_when_aborted c ev Ha) as [Ha' Hr].
  unfold run in *; simpl. destruct (IH _ Ha') as [? ?].
  split; [done|congruence].
Qed.

(** The abort handler in place stays the one of the request handler. *)
Lemma step_handlers c ev : same_handlers (res c) (res (step c ev)).
Proof.
  destruct ev as [|chunk isLast|p|]; simpl.
  - unfold run_aborted. destruct (uWS.abortedHandler _) as [[]|];
      apply same_handlers_refl.
  - unfold run_data. destruct (uWS.dataHandler _) as [[]|];
      apply same_handlers_refl.
  - destruct (continuation c); try apply same_handlers_refl.
    destruct p; [|apply same_handlers_refl].
    destruct (aborted c); [apply same_handlers_refl|].
    apply write_response_handlers.
  - destruct (continuation c); try apply same_handlers_refl.
    rewrite after_async_res. apply same_handlers_resume.
Qed.

Lemma run_handlers evs c : same_handlers (res c) (res (run c evs)).
Proof.
  revert c; induction evs as [|ev evs IH]; intros c;
    [apply same_handlers_refl|].
  unfold run in *; simpl.
  eapply same_handlers_trans; [apply step_handlers|apply IH].
Qed.

Lemma any_aborted_handler app protocol res0 req :
  uWS.abortedHandler (res (any app protocol res0 req)) = Some SetAborted.
Proof.
  unfold any. destruct (has_no_body _); simpl;
    (destruct (app _); simpl; [|done|done]);
    match goal with
    | |- context [write_response ?c ?r] =>
        destruct (write_response_handlers c r) as [_ ->]
    end; done.
Qed.

Lemma abort_sets_flag c :
  uWS.abortedHandler (res c) = Some SetAborted ->
  aborted (step c Abort) = true /\ res (step c Abort) = res c.
Proof. intros H. simpl. unfold run_aborted. by rewrite H. Qed.

(** C1. Once the abort flag is set, no write is made for the response:
    the fast path returns at once, the async path returns at its entry
    check and, when the flag is set while the body is being resolved, at
    the check after the resolution, without a rejection; and on a
    connection, whatever happens after an abort notification leaves the
    writes as they were. *)
Theorem C1_abort_suppresses_writes :
  (forall r cache, writeResponseViaCache r cache true = (true, r)) /\
  (forall r resp, writeResponseAsync_start r resp true = Returned r) /\
  (forall r status resp text,
      writeResponseAsync_resume r (AwaitText status resp (Normal text)) true
      = Returned r) /\
  (forall r status resp bytes,
      writeResponseAsync_resume r
        (AwaitArrayBuffer status resp (Normal bytes)) true
      = Returned r) /\
  (forall app protocol res0 req before after,
      let c := run (any app protocol res0 req) before in
      aborted (run c (Abort :: after)) = true /\
      uWS.written (res (run c (Abort :: after))) = uWS.written (res c)).
Proof.
  repeat split; try done.
  - pose proof (any_aborted_handler app protocol res0 req) as Hh.
    destruct (run_handlers before (any app protocol res0 req)) as [_ Hb].
    rewrite <- Hb in Hh. destruct (abort_sets_flag _ Hh) as [Ha _].
    rewrite run_cons. by apply run_when_aborted.
  - pose proof (any_aborted_handler app protocol res0 req) as Hh.
    destruct (run_handlers before (any app protocol res0 req)) as [_ Hb].
    rewrite <- Hb in Hh. destruct (abort_sets_flag _ Hh) as [Ha Hr].
    rewrite run_cons.
    destruct (run_when_aborted after _ Ha) as [_ ->]. by rewrite Hr.
Qed.

(** *** Fast path against async path *)

Lemma written_fold (l : list (string * string)) r :
  uWS.written
    (fold_left (fun res kv => uWS.writeHeader res (fst kv) (snd kv)) l r)
  = uWS.written r ++ map (fun kv => uWS.WriteHeader (fst kv) (snd kv)) l.
Proof.
  revert r; induction l as [|kv l IH]; intros r; simpl.
  - by rewrite app_nil_r.
  - rewrite IH. simpl. by rewrite <- app_assoc.
Qed.

(** What the fast path writes for a text or byte body. *)
Lemma fast_path_written r status body ch payload :
  match body with
  | BString s => payload = uWS.RString s
  | BUint8Array b => payload = uWS.RBytes b
  | _ => False
  end ->
  writeResponseViaCache r (status, body, ch) false =
  (true,
   uWS.end_
     (writeHeaders (uWS.writeStatus r (Number_toString status)) ch)
     (Some payload)).
Proof. destruct body; intros H; try done; by subst. Qed.

Lemma wire_end r body :
  uWS.wire (uWS.end_ r body) = uWS.wire r ++ [uWS.Body (uWS.end_bytes body)].
Proof. unfold uWS.wire. simpl. by rewrite map_app. Qed.

Lemma encode_decode bs :
  utf8_encode (utf8_decode bs) = dec (strip_bom bs) dec_init.
Proof. apply list_byte_of_string_of_list_byte. Qed.

(** The platform model on small inputs. *)
Example Headers_entries_example :
  Headers_entries (new_Headers [("X-B", " 2 "); ("a", "1"); ("x-b", "3")])
  = [("a", "1"); ("x-b", "2, 3")].
Proof. reflexivity. Qed.

Example utf8_decode_well_formed :
  utf8_decode [xe2; x82; xac; x41] = string_of_list_byte [xe2; x82; xac; x41].
Proof. reflexivity. Qed.

Example utf8_decode_ill_formed :
  utf8_decode [x68; xff; x69] = string_of_list_byte [x68; xef; xbf; xbd; x69].
Proof. reflexivity. Qed.

Example utf8_decode_drops_bom : utf8_decode [xef; xbb; xbf; x41] = "A".
Proof. reflexivity. Qed.

(** Records with no entry or with one lower-case entry are in iteration
    form. *)
Lemma in_iteration_form_empty : in_iteration_form (CRecord []).
Proof. reflexivity. Qed.

Lemma in_iteration_form_single k v :
  toLowerCase k = k -> normalize_value v = v ->
  in_iteration_form (CRecord [(k, v)]).
Proof.
  intros Hk Hv. unfold in_iteration_form, Headers_entries, sorted_names,
    Headers_get, Headers_values, new_Headers, Headers_append.
  simpl. rewrite !Hk, Hv, String.eqb_refl. simpl.
  by destruct (String.eqb k "set-cookie").
Qed.

Lemma construct_Headers_Normal l h :
  construct_Headers l = Normal h -> h = new_Headers l.
Proof. unfold construct_Headers. destruct (valid_header_pairs l); congruence. Qed.

(** What a native response that was built holds. *)
Lemma new_Response_inv body init n :
  new_Response body init = Normal n ->
  exists h0,
    headers_of_init (init_headers_of init) = Normal h0 /\
    rsp_status n = match init_status_of init with
                   | Some st => unsigned_short st
                   | None => 200%Z
                   end /\
    (200 <= rsp_status n <= 599)%Z /\
    rsp_body n = body /\ rsp_bodyUsed n = false /\
    rsp_headers n = match body with
                    | Some b =>
                        match body_type b, Headers_get h0 "content-type" with
                        | Some t, None => Headers_append h0 "content-type" t
                        | _, _ => h0
                        end
                    | None => h0
                    end.
Proof.
  unfold new_Response, init_headers_of, init_status_of.
  set (st := match init with
             | Some i => match init_status i with
                         | Some n0 => unsigned_short n0
                         | None => 200%Z
                         end
             | None => 200%Z
             end).
  assert (Hst : st = match match init with
                           | Some i => init_status i
                           | None => None
                           end with
                     | Some st0 => unsigned_short st0
                     | None => 200%Z
                     end).
  { subst st. destruct init as [i|]; [|done]. by destruct (init_status i). }
  destruct (negb _) eqn:Hrange; [done|].
  destruct (negb (valid_statusText _)); [done|].
  destruct (headers_of_init _) as [h0|e]; [|done].
  apply negb_false_iff, andb_true_iff in Hrange as [H1 H2].
  apply Z.leb_le in H1. apply Z.leb_le in H2.
  destruct body as [b|].
  - destruct (is_null_body_status st); [done|]. intros [= <-].
    exists h0. cbn [rsp_status rsp_body rsp_bodyUsed rsp_headers].
    by rewrite <- Hst.
  - intros [= <-]. exists h0.
    cbn [rsp_status rsp_body rsp_bodyUsed rsp_headers]. by rewrite <- Hst.
Qed.

Lemma new_Response_body b init n :
  new_Response (Some b) init = Normal n ->
  rsp_body n = Some b /\ rsp_bodyUsed n = false.
Proof.
  intros Hn. destruct (new_Response_inv _ _ _ Hn) as (h0 & _ & _ & _ & ? & ? & _).
  done.
Qed.

(** The headers getter of a triple converts a record that the native
    constructor accepts. *)
Lemma captured_headers_convert init h0 :
  headers_of_init (init_headers_of init) = Normal h0 ->
  match captured_headers init with
  | CHeaders h => Normal h
  | CRecord rec => construct_Headers rec
  end = Normal (headers_of_cache (captured_headers init)).
Proof.
  unfold init_headers_of, captured_headers.
  destruct init as [i|]; [|done].
  destruct (init_headers i) as [[h|l|r]|]; cbn [headers_of_init headers_of_cache];
    try done.
  intros H. by rewrite H, (construct_Headers_Normal _ _ H).
Qed.

(** The async path on a lightweight response whose triple has been
    dropped runs on the native response it keeps. *)
Lemma dropped_triple_async r l n r' :
  cacheKey l = None -> responseCache l = Some n ->
  writeResponseAsync r (NativeResponse n) = Returned r' ->
  writeResponseAsync r (Lightweight l) = Returned r'.
Proof.
  destruct l as [b i rc ck]. cbn [cacheKey responseCache].
  intros -> ->.
  unfold writeResponseAsync, writeResponseAsync_start.
  cbn [response_headers response_status LightweightResponse_headers
       LightweightResponse_status getResponseCache cacheKey responseCache
       body_ init_].
  destruct (sniffs_as_text _).
  - unfold response_text, LightweightResponse_text,
      LightweightResponse_consume.
    cbn [getResponseCache cacheKey responseCache body_ init_].
    destruct (Response_text n) as [[t|e] n']; [|done].
    cbn [writeResponseAsync_resume write_head response_headers
         LightweightResponse_headers getResponseCache cacheKey responseCache
         body_ init_]. done.
  - unfold response_arrayBuffer, LightweightResponse_arrayBuffer,
      LightweightResponse_consume.
    cbn [getResponseCache cacheKey responseCache body_ init_].
    destruct (Response_arrayBuffer n) as [[bs|e] n']; [|done].
    cbn [writeResponseAsync_resume write_head response_headers
         LightweightResponse_headers getResponseCache cacheKey responseCache
         body_ init_]. done.
Qed.

(** The conditions of the amended statement are needed.  Bytes that are
    not well-formed UTF-8 and are sniffed as text come out changed on
    the async path. *)
Example async_path_rewrites_ill_formed_text :
  let body := Some (BUint8Array [xff]) in
  let init := Some {| init_status := None; init_statusText := None;
                      init_headers :=
                        Some (InitRecord [("content-type", "text/plain")]) |} in
  exists n cache,
    new_Response body init = Normal n /\
    cacheKey (new_LightweightResponse body init) = Some cache /\
    uWS.wire (snd (writeResponseViaCache uWS.fresh cache false)) <>
    uWS.wire (outcome_res uWS.fresh
                (writeResponseAsync uWS.fresh (NativeResponse n))).
Proof.
  eexists. eexists. split; [reflexivity|]. split; [reflexivity|].
  vm_compute. discriminate.
Qed.

(** A text body without a content type: the native constructor adds
    [text/plain;charset=UTF-8], which the async path writes and the
    triple does not hold. *)
Example async_path_writes_default_content_type :
  exists n cache,
    new_Response (Some (BString "hi")) None = Normal n /\
    cacheKey (new_LightweightResponse (Some (BString "hi")) None)
    = Some cache /\
    uWS.wire (snd (writeResponseViaCache uWS.fresh cache false))
    = [uWS.StatusLine "200"; uWS.Body [x68; x69]] /\
    uWS.wire (outcome_res uWS.fresh
                (writeResponseAsync uWS.fresh (NativeResponse n)))
    = [uWS.StatusLine "200";
       uWS.HeaderLine "content-type" "text/plain;charset=UTF-8";
       uWS.Body [x68; x69]].
Proof.
  eexists. eexists. split; [reflexivity|]. split; [reflexivity|].
  split; reflexivity.
Qed.

(** A status that the native constructor refuses has no async-path
    counterpart at all: the triple of the 101 response is written by the
    fast path, the async path on the same object rejects. *)
Example async_path_rejects_101 :
  let init := Some {| init_status := Some 101%Z;
                      init_statusText := Some "Switching Protocols";
                      init_headers := None |} in
  let l := new_LightweightResponse None init in
  (exists cache r,
      cacheKey l = Some cache /\
      writeResponseViaCache uWS.fresh cache false = (true, r) /\
      uWS.wire r = [uWS.StatusLine "101"; uWS.Body []]) /\
  writeResponseAsync uWS.fresh (Lightweight (snd (getResponseCache l)))
  = Rejected "RangeError" uWS.fresh.
Proof.
  split; [|reflexivity].
  eexists. eexists. split; [reflexivity|]. split; reflexivity.
Qed.

(** C2 (as stated) fails: for the text body ["hi"] with the header record
    [{"Content-Type": "text/plain"}] the fast path writes the header name
    as given, the async path on the native response built from the same
    body and init writes it in lower case. *)
Lemma C2_counterexample :
  let body := Some (BString "hi") in
  let init := Some {| init_status := None; init_statusText := None;
                      init_headers :=
                        Some (InitRecord [("Content-Type", "text/plain")]) |} in
  exists n cache,
    new_Response body init = Normal n /\
    cacheKey (new_LightweightResponse body init) = Some cache /\
    uWS.wire (snd (writeResponseViaCache uWS.fresh cache false)) <>
    uWS.wire (outcome_res uWS.fresh
                (writeResponseAsync uWS.fresh (NativeResponse n))).
Proof.
  eexists. eexists. split; [reflexivity|]. split; [reflexivity|].
  vm_compute. discriminate.
Qed.

(** C2 (amended). Take a lightweight response built from a body and an
    init from which the native constructor builds a response [n], as
    built or after its headers were read, with a triple that holds a
    text or byte body (an absent body is captured as the empty text).
    On a live connection the fast path writes the triple, the async path
    on [n] returns, the async path on the lightweight response itself
    once its triple is dropped returns the same, and all put the same
    status line, header lines and body bytes on the wire, provided that
    - the status given is an unsigned short (the native constructor
      takes it modulo 65536, the triple as given),
    - the headers of the triple are a collection, or a record already in
      the collection's iteration form, and a collection given in the
      init holds its values as [Headers] stores them,
    - a text body comes with a content type (the native constructor adds
      one otherwise, the triple has none),
    - a body whose content type is sniffed as text survives text
      decoding unchanged. *)
Theorem C2_fast_path_matches_async r body init n l status b ch bytes :
  new_Response body init = Normal n ->
  l = new_LightweightResponse body init \/
  l = snd (LightweightResponse_headers (new_LightweightResponse body init)) ->
  cacheKey l = Some (status, b, ch) ->
  simple_body_bytes b = Some bytes ->
  (forall st, init_status_of init = Some st -> (0 <= st < 65536)%Z) ->
  in_iteration_form ch ->
  (forall h, init_headers_of init = Some (InitHeaders h) ->
             new_Headers h = h) ->
  (forall s, body = Some (BString s) ->
             Headers_get (headers_of_cache ch) "content-type" <> None) ->
  (sniffs_as_text (Headers_get (headers_of_cache ch) "content-type") = true ->
   utf8_encode (utf8_decode bytes) = bytes) ->
  exists r_fast r_async,
    writeResponseViaCache r (status, b, ch) false = (true, r_fast) /\
    writeResponseAsync r (NativeResponse n) = Returned r_async /\
    writeResponseAsync r (Lightweight (snd (getResponseCache l)))
    = Returned r_async /\
    uWS.wire r_async = uWS.wire r_fast.
Proof.
  intros Hn Hl Hcache Hb Hst Hform Hinst Hct Htext.
  destruct (new_Response_inv _ _ _ Hn)
    as (h0 & Hh0 & Hstatus & Hrange & Hbody & Hused & Hheaders).
  pose proof (captured_headers_convert _ _ Hh0) as Hconv.
  (* the triple: the captured status and body, the captured headers as
     given or as a collection *)
  assert (Htriple :
    cacheable body = true /\
    status = captured_status init /\
    b = default (BString "") body /\
    (ch = captured_headers init \/
     ch = CHeaders (headers_of_cache (captured_headers init))) /\
    responseCache l = None /\ body_ l = body /\ init_ l = init).
  { destruct (cacheable body) eqn:Hc.
    - destruct Hl as [-> | ->];
        unfold new_LightweightResponse, LightweightResponse_headers in Hcache;
        cbn [cacheKey] in Hcache; rewrite Hc in Hcache;
        unfold new_LightweightResponse, LightweightResponse_headers;
        cbn [cacheKey]; rewrite ?Hc; rewrite ?Hconv in *;
        cbn [cacheKey snd responseCache body_ init_] in *;
        injection Hcache as <- <- <-; repeat split; try done;
        try (by left); by right.
    - destruct Hl as [-> | ->];
        unfold new_LightweightResponse, LightweightResponse_headers,
          getResponseCache in Hcache;
        cbn [cacheKey responseCache body_ init_] in Hcache;
        rewrite Hc in Hcache; cbn [cacheKey responseCache body_ init_] in Hcache;
        rewrite ?Hn in Hcache; done. }
  destruct Htriple as (Hc & -> & -> & Hch & Hrc & Hbl & Hil).
  (* the headers of the native response are those of the triple *)
  assert (Hcoll : h0 = headers_of_cache (captured_headers init)).
  { revert Hh0 Hinst. unfold init_headers_of, captured_headers.
    destruct init as [i|]; [|by intros [= <-]].
    destruct (init_headers i) as [[h|pairs|rec]|];
      cbn [headers_of_init headers_of_cache]; intros Hh0 Hinst.
    - rewrite (construct_Headers_Normal _ _ Hh0). by apply Hinst.
    - by apply construct_Headers_Normal.
    - by apply construct_Headers_Normal.
    - by injection Hh0 as <-. }
  assert (Hsame : headers_of_cache ch
                  = headers_of_cache (captured_headers init)).
  { by destruct Hch as [-> | ->]. }
  assert (Hnative : rsp_headers n = headers_of_cache ch).
  { rewrite Hheaders, Hsame, <- Hcoll.
    destruct body as [[s| | | | |]|]; cbn [body_type]; try done.
    specialize (Hct s eq_refl). rewrite Hsame, <- Hcoll in Hct.
    by destruct (Headers_get h0 "content-type"). }
  assert (Hlines : header_entries ch = Headers_entries (rsp_headers n)).
  { rewrite Hnative. destruct ch as [h|rec]; [done|]. symmetry. exact Hform. }
  (* the status of the native response is the captured one *)
  assert (Hcode : rsp_status n = captured_status init).
  { revert Hstatus Hst Hrange. unfold init_status_of, captured_status.
    destruct init as [i|]; [|done].
    destruct (init_status i) as [st|]; [|done].
    intros Hstatus Hst Hrange. specialize (Hst st eq_refl).
    assert (Hmod : unsigned_short st = st).
    { unfold unsigned_short. apply Z.mod_small. lia. }
    rewrite Hmod in Hstatus. rewrite Hstatus in *.
    destruct (st =? 0)%Z eqn:Hz; [|done]. apply Z.eqb_eq in Hz. lia. }
  (* the body of the native response resolves to the captured bytes *)
  assert (Hbytes : exists payload n',
    writeResponseViaCache r
      (captured_status init, default (BString "") body, ch) false
    = (true, uWS.end_
               (writeHeaders
                  (uWS.writeStatus r (Number_toString (captured_status init)))
                  ch) (Some payload)) /\
    uWS.end_bytes (Some payload) = bytes /\
    Response_arrayBuffer n = (Normal bytes, n') /\
    rsp_headers n' = rsp_headers n).
  { unfold Response_arrayBuffer. rewrite Hbody, Hused.
    destruct body as [[s|bs| | | |]|]; cbn [default simple_body_bytes] in Hb;
      try done; injection Hb as <-; cbn [body_bytes default];
      eexists; eexists; (split; [reflexivity|]); by repeat split. }
  destruct Hbytes as (payload & n' & Hfast & Hpay & Hab & Hh').
  assert (Hwire : forall b1,
    uWS.end_bytes b1 = bytes ->
    uWS.wire
      (uWS.end_
         (fold_left (fun res kv => uWS.writeHeader res (fst kv) (snd kv))
            (Headers_entries (rsp_headers n))
            (uWS.writeStatus r (Number_toString (captured_status init)))) b1)
    = uWS.wire
        (uWS.end_
           (writeHeaders
              (uWS.writeStatus r (Number_toString (captured_status init))) ch)
           (Some payload))).
  { intros b1 Hend. rewrite !wire_end, Hend, Hpay. f_equal.
    unfold uWS.wire. f_equal. rewrite written_fold, <- Hlines.
    destruct ch; cbn [writeHeaders header_entries]; by rewrite written_fold. }
  assert (Hasync : exists r_async,
    writeResponseAsync r (NativeResponse n) = Returned r_async /\
    uWS.wire r_async
    = uWS.wire
        (uWS.end_
           (writeHeaders
              (uWS.writeStatus r (Number_toString (captured_status init))) ch)
           (Some payload))).
  { unfold writeResponseAsync, writeResponseAsync_start.
    cbn [response_headers response_status]. rewrite Hcode, Hnative.
    destruct (sniffs_as_text _) eqn:Hsniff.
    - unfold response_text, Response_text. rewrite Hab.
      cbn [writeResponseAsync_resume write_head response_headers].
      rewrite Hh'. eexists. split; [reflexivity|].
      apply Hwire. cbn [uWS.end_bytes]. by apply Htext.
    - unfold response_arrayBuffer. rewrite Hab.
      cbn [writeResponseAsync_resume write_head response_headers].
      rewrite Hh'. destruct (0 <? length bytes)%nat eqn:Hlen.
      + eexists. split; [reflexivity|]. by apply Hwire.
      + eexists. split; [reflexivity|]. apply Hwire.
        destruct bytes; [done|]. simpl in Hlen. done. }
  destruct Hasync as (r_async & Hasync & Hw).
  eexists. exists r_async. split; [exact Hfast|]. split; [exact Hasync|].
  split; [|exact Hw].
  apply (dropped_triple_async r _ n); [| |exact Hasync];
    unfold getResponseCache; rewrite Hrc, Hbl, Hil, Hn; done.
Qed.

Lemma C2_fast_path_matches_async_witness :
  let body := Some (BString "hi") in
  let init := Some {| init_status := Some 201%Z; init_statusText := None;
                      init_headers :=
                        Some (InitRecord [("content-type", "text/plain")]) |} in
  let n := {| rsp_status := 201;
              rsp_headers := [("content-type", "text/plain")];
              rsp_body := body; rsp_bodyUsed := false |} in
  let cache := (201%Z, BString "hi",
                CRecord [("content-type", "text/plain")]) in
  exists r_fast r_async,
    writeResponseViaCache uWS.fresh cache false = (true, r_fast) /\
    writeResponseAsync uWS.fresh (NativeResponse n) = Returned r_async /\
    writeResponseAsync uWS.fresh
      (Lightweight (snd (getResponseCache (new_LightweightResponse body init))))
    = Returned r_async /\
    uWS.wire r_async = uWS.wire r_fast.
Proof.
  intros body init n cache.
  apply (C2_fast_path_matches_async uWS.fresh body init n
           (new_LightweightResponse body init) 201%Z (BString "hi")
           (CRecord [("content-type", "text/plain")]) (utf8_encode "hi")).
  - reflexivity.
  - left. reflexivity.
  - reflexivity.
  - reflexivity.
  - intros st [= <-]. lia.
  - reflexivity.
  - intros h. discriminate.
  - intros s _. discriminate.
  - intros _. reflexivity.
Defined.

(** *** Content-type sniffing of the async path *)

(** C3 (as stated) fails in both directions: a type that contains [+json]
    without ending in it is resolved as text, and a type that contains
    [application/json] without starting with it is resolved as bytes. *)
Lemma C3_counterexample :
  (spec_text_rule (Some "application/ld+json; charset=utf-8") = false /\
   resolves_as_text
     (writeResponseAsync_start uWS.fresh
        (json_response "application/ld+json; charset=utf-8") false) = true) /\
  (spec_text_rule (Some "multipart/related; type=application/json") = true /\
   resolves_as_text
     (writeResponseAsync_start uWS.fresh
        (json_response "multipart/related; type=application/json") false)
   = false).
Proof. vm_compute. done. Qed.

Lemma sniffs_as_text_iff contentType :
  sniffs_as_text contentType = true <->
  exists ct, contentType = Some ct /\
             (startsWith ct "text/" = true \/
              startsWith ct "application/json" = true \/
              includes ct "+json" = true).
Proof.
  unfold sniffs_as_text. destruct contentType as [ct|].
  - rewrite andb_true_iff, !orb_true_iff. split.
    + intros [_ H]. exists ct. split; [done|tauto].
    + intros (ct' & [= <-] & H). split; [|tauto].
      destruct ct as [|c ct]; [|done].
      exfalso. destruct H as [H|[H|H]]; by vm_compute in H.
  - split; [done|]. by intros (ct & ? & _).
Qed.

(** C3 (amended). On a live connection the async path resolves the body
    as text exactly when the response has a content type that starts with
    [text/], starts with [application/json], or contains [+json]; in
    every other case, an absent content type included, it resolves the
    body as raw bytes. *)
Theorem C3_text_resolution r resp h resp1 status resp2 :
  response_headers resp = (Normal h, resp1) ->
  response_status resp1 = (Normal status, resp2) ->
  (resolves_as_text (writeResponseAsync_start r resp false) = true <->
   exists ct, Headers_get h "content-type" = Some ct /\
              (startsWith ct "text/" = true \/
               startsWith ct "application/json" = true \/
               includes ct "+json" = true)) /\
  (resolves_as_bytes (writeResponseAsync_start r resp false) = true <->
   resolves_as_text (writeResponseAsync_start r resp false) = false).
Proof.
  intros Hh Hs. unfold writeResponseAsync_start. rewrite Hh, Hs.
  rewrite <- sniffs_as_text_iff.
  destruct (sniffs_as_text _).
  - destruct (response_text resp2); simpl. split; [done|]. split; done.
  - destruct (response_arrayBuffer resp2); simpl. split; split; done.
Qed.

Lemma C3_text_resolution_witness :
  (resolves_as_text
     (writeResponseAsync_start uWS.fresh
        (json_response "application/json; charset=UTF-8") false) = true <->
   exists ct,
     Headers_get
       (new_Headers [("content-type", "application/json; charset=UTF-8")])
       "content-type" = Some ct /\
     (startsWith ct "text/" = true \/
      startsWith ct "application/json" = true \/
      includes ct "+json" = true)) /\
  (resolves_as_bytes
     (writeResponseAsync_start uWS.fresh
        (json_response "application/json; charset=UTF-8") false) = true <->
   resolves_as_text
     (writeResponseAsync_start uWS.fresh
        (json_response "application/json; charset=UTF-8") false) = false).
Proof.
  apply (C3_text_resolution uWS.fresh
           (json_response "application/json; charset=UTF-8")
           (new_Headers [("content-type", "application/json; charset=UTF-8")])
           (json_response "application/json; charset=UTF-8")
           200%Z
           (json_response "application/json; charset=UTF-8")).
  - reflexivity.
  - reflexivity.
Defined.

(** *** The fast-path triple *)





(** C5. A response built from a string body and no headers: the captured
    headers are the empty record, so the response has no content type
    and the fast path writes no header line; once the triple is dropped,
    the same response answers with the native headers, which carry
    [text/plain;charset=UTF-8]. *)
Theorem C5_no_default_content_type (s : string) (r : uWS.HttpResponse) :
  let resp := new_LightweightResponse (Some (BString s)) None in
  cacheKey resp = Some (200%Z, BString s, CRecord []) /\
  fst (LightweightResponse_headers resp) = Normal [] /\
  uWS.written
    (snd (writeResponseViaCache r (200%Z, BString s, CRecord []) false))
  = uWS.written r ++ [uWS.WriteStatus "200"; uWS.End (Some (uWS.RString s))] /\
  fst (LightweightResponse_headers (snd (getResponseCache resp)))
  = Normal [("content-type", "text/plain;charset=UTF-8")].
Proof.
  repeat split. simpl. by rewrite <- app_assoc.
Qed.

(* ====================================================================== *)
(** ** Properties of materialization                                      *)
(* ====================================================================== *)

Section MaterializationProperties.

Variable rejects : RequestObject -> option string.
Variable o : RequestObject.
Variable h0 : Heap.

Lemma getRequestCache_reachable self h :
  reachable rejects o h0 self h ->
  let result := getRequestCache rejects self h in
  (fst (fst result) = match rejects o with
                      | Some e => Throw e
                      | None => Normal (length (objects h0))
                      end) /\
  reachable rejects o h0 (snd (fst result)) (snd result) /\
  (requestCacheKey self <> None ->
   result = (Normal (length (objects h0)), self, h)) /\
  (rejects o = None ->
   requestCacheKey (snd (fst result)) = Some (length (objects h0))).
Proof.
  intros Hr. unfold getRequestCache.
  destruct Hr as [self (Hu & Hm & Hh & Hb & Hd & Hn) Hk
                 |self h Hdesc Hrej Hk Ho Hb
                 |self h Hdesc Hrej Hk Ho Hb].
  - rewrite Hk. unfold new_LightweightRequest.
    rewrite Hu, Hm, Hh, Hb.
    assert (Ho : {| ro_url := ro_url o; ro_method := ro_method o;
                    ro_headers := ro_headers o; ro_body := ro_body o;
                    ro_duplex := match ro_body o with
                                 | Some _ => Some "half"
                                 | None => None
                                 end;
                    ro_bodyUsed := false |} = o).
    { destruct o; simpl in *. by subst. }
    rewrite Ho. destruct (rejects o) as [e|] eqn:Hrej; simpl.
    + split; [done|]. split; [|done]. by apply still_lazy.
    + split; [done|]. split; [|done].
      by apply materialized.
  - rewrite Hk, Hrej. simpl. split; [done|]. split; [|done].
    by apply materialized.
  - rewrite Hk, Hrej. simpl. split; [done|]. split; [|done].
    by apply body_read.
Qed.

Lemma lookup_fresh (x : RequestObject) :
  (objects h0 ++ [x]) !! length (objects h0) = Some x.
Proof. by rewrite lookup_app_r, Nat.sub_diag. Qed.

Lemma insert_fresh (x y : RequestObject) :
  <[length (objects h0) := y]> (objects h0 ++ [x]) = objects h0 ++ [y].
Proof.
  rewrite insert_app_r_alt, Nat.sub_diag; [done|lia].
Qed.

(** A read of [headers] changes at most the memoized collection. *)
Lemma headers_read_reachable self h :
  reachable rejects o h0 self h ->
  reachable rejects o h0 (snd (LazyRequest_headers self)) h /\
  requestCacheKey (snd (LazyRequest_headers self)) = requestCacheKey self.
Proof.
  intros Hr. unfold LazyRequest_headers.
  destruct (headersKey self); [done|].
  destruct (construct_Headers _); [|done]. simpl. split; [|done].
  destruct Hr as [self Hd Hk|self h Hd Hrej Hk Ho Hb|self h Hd Hrej Hk Ho Hb].
  - by apply still_lazy.
  - by apply materialized.
  - by apply body_read.
Qed.

Lemma perform_reachable op self h :
  reachable rejects o h0 self h ->
  reachable rejects o h0 (snd (fst (perform rejects op self h)))
            (snd (perform rejects op self h)) /\
  (op = Promote ->
   fst (fst (perform rejects op self h)) = promoted rejects o h0).
Proof.
  intros Hr. destruct op; simpl; try (split; [done|done]).
  - (* headers *)
    destruct (headers_read_reachable self h Hr) as [Hr' _].
    by destruct (LazyRequest_headers self) as [[hs|e] self'].
  - (* promotion *)
    destruct (getRequestCache_reachable self h Hr) as (Hv & Hr' & _).
    destruct (getRequestCache rejects self h) as [[[r|e] self'] h'];
      simpl in *; (split; [done|]); intros _; unfold promoted;
      by destruct (rejects o); simplify_eq.
  - (* a proxied property *)
    destruct (getRequestCache_reachable self h Hr) as (Hv & Hr' & _).
    by destruct (getRequestCache rejects self h) as [[[r|e] self'] h'].
  - (* a body method *)
    destruct (getRequestCache_reachable self h Hr) as (Hv & Hr' & _).
    destruct (getRequestCache rejects self h) as [[[r|e] self'] h'];
      simpl in *; [|done].
    split; [|done].
    destruct (rejects o) eqn:Hrej; simplify_eq.
    unfold consume.
    destruct Hr' as [self' Hd Hk|self' h' Hd _ Hk Ho Hb|self' h' Hd _ Hk Ho Hb].
    + rewrite (lookup_ge_None_2 (objects h0) (length (objects h0)))
        by lia.
      by apply still_lazy.
    + rewrite Ho, lookup_fresh.
      destruct (ro_body o) eqn:Hbody; simpl; [|by apply materialized].
      destruct Hd as (? & ? & ? & ? & ? & Hused). rewrite Hused. simpl.
      apply body_read; try done; simpl.
      * by rewrite insert_fresh.
      * by rewrite Hb.
    + rewrite Ho, lookup_fresh. simpl.
      destruct (ro_body o); simpl; by apply body_read.
Qed.

(** How an operation moves the memoized reference: a read of a captured
    field leaves it, any other operation sets it when the constructor
    accepts, and once set it stays. *)
Lemma perform_key op self h :
  reachable rejects o h0 self h ->
  let self' := snd (fst (perform rejects op self h)) in
  (reads_captured_field op = true ->
   requestCacheKey self' = requestCacheKey self) /\
  (reads_captured_field op = false -> rejects o = None ->
   requestCacheKey self' = Some (length (objects h0))) /\
  (requestCacheKey self <> None ->
   requestCacheKey self' = requestCacheKey self).
Proof.
  intros Hr.
  assert (Hproxy : forall (k : Ref -> LazyRequest -> Heap ->
                               OpValue * LazyRequest * Heap),
    (forall r s1 h1, snd (fst (k r s1 h1)) = s1) ->
    let self' :=
      snd (fst (match getRequestCache rejects self h with
                | (Normal r, s1, h1) => k r s1 h1
                | (Throw e, s1, h1) => (VThrow e, s1, h1)
                end)) in
    (rejects o = None ->
     requestCacheKey self' = Some (length (objects h0))) /\
    (requestCacheKey self <> None ->
     requestCacheKey self' = requestCacheKey self)).
  { intros k Hk.
    destruct (getRequestCache_reachable self h Hr) as (_ & _ & Hsame & Hset).
    destruct (getRequestCache rejects self h) as [[[r|e] s1] h1] eqn:Hg;
      simpl in *; rewrite ?Hk; (split; [exact Hset|]); intros Hne;
      by injection (Hsame Hne) as _ -> _. }
  destruct op; simpl; repeat split; try done.
  - intros _. destruct (headers_read_reachable self h Hr) as [_ Hk].
    by destruct (LazyRequest_headers self) as [[hs|e] s1].
  - intros _. destruct (headers_read_reachable self h Hr) as [_ Hk].
    by destruct (LazyRequest_headers self) as [[hs|e] s1].
  - intros _. apply (Hproxy (fun r s1 h1 => (VRef r, s1, h1))). done.
  - apply (Hproxy (fun r s1 h1 => (VRef r, s1, h1))). done.
  - intros _.
    apply (Hproxy (fun r s1 h1 =>
                     (match objects h1 !! r with
                      | Some ob => VBool (ro_bodyUsed ob)
                      | None => VThrow "TypeError"
                      end, s1, h1))). done.
  - apply (Hproxy (fun r s1 h1 =>
                     (match objects h1 !! r with
                      | Some ob => VBool (ro_bodyUsed ob)
                      | None => VThrow "TypeError"
                      end, s1, h1))). done.
  - intros _.
    apply (Hproxy (fun r s1 h1 =>
                     let '(v, h2) := consume r h1 in (v, s1, h2))).
    intros r s1 h1. by destruct (consume r h1).
  - apply (Hproxy (fun r s1 h1 =>
                     let '(v, h2) := consume r h1 in (v, s1, h2))).
    intros r s1 h1. by destruct (consume r h1).
Qed.

Lemma perform_all_reachable ops self h :
  reachable rejects o h0 self h ->
  let result := perform_all rejects ops self h in
  reachable rejects o h0 (snd (fst result)) (snd result) /\
  forall i, ops !! i = Some Promote ->
            fst (fst result) !! i = Some (promoted rejects o h0).
Proof.
  revert self h. induction ops as [|op ops IH]; intros self h Hr; simpl.
  - split; [done|]. by intros i.
  - destruct (perform_reachable op self h Hr) as [Hr' Hp].
    destruct (perform rejects op self h) as [[v self'] h']; simpl in *.
    destruct (IH self' h' Hr') as [Hr'' Hall].
    destruct (perform_all rejects ops self' h') as [[vs self''] h''];
      simpl in *.
    split; [done|]. intros [|i]; simpl.
    + intros [= ->]. by rewrite Hp.
    + apply Hall.
Qed.

Lemma perform_all_key ops self h :
  reachable rejects o h0 self h ->
  let self' := snd (fst (perform_all rejects ops self h)) in
  (forallb reads_captured_field ops = true ->
   requestCacheKey self' = requestCacheKey self) /\
  (rejects o = None ->
   existsb (fun op => negb (reads_captured_field op)) ops = true \/
   requestCacheKey self <> None ->
   requestCacheKey self' = Some (length (objects h0))).
Proof.
  revert self h. induction ops as [|op ops IH]; intros self h Hr.
  - simpl. split; [done|]. intros Hrej [Hex|Hne]; [done|].
    destruct Hr as [self Hd Hk|self h Hd _ Hk Ho Hb|self h Hd _ Hk Ho Hb];
      done.
  - destruct (perform_reachable op self h Hr) as [Hr' _].
    destruct (perform_key op self h Hr) as (Hread & Hset & Hkeep).
    simpl. destruct (perform rejects op self h) as [[v self1] h1];
      simpl in *.
    destruct (IH self1 h1 Hr') as [IHread IHset].
    destruct (perform_all rejects ops self1 h1) as [[vs self2] h2];
      simpl in *.
    split.
    + intros Hall. apply andb_true_iff in Hall as [Hop Hall].
      by rewrite IHread, Hread.
    + intros Hrej Hcase. apply IHset; [done|].
      destruct (reads_captured_field op) eqn:Hop; simpl in Hcase.
      * destruct Hcase as [Hex|Hne]; [by left|].
        right. by rewrite Hkeep.
      * right. by rewrite Hset.
Qed.

(** What a reachable state holds, by its memoized reference. *)
Lemma reachable_inv self h :
  reachable rejects o h0 self h ->
  (requestCacheKey self = None -> h = h0) /\
  (requestCacheKey self <> None ->
   rejects o = None /\
   exists o', (o' = o \/ o' = use_body o) /\
              objects h = objects h0 ++ [o'] /\
              bodyReads h = if ro_bodyUsed o' then S (bodyReads h0)
                            else bodyReads h0).
Proof.
  intros [self' Hd Hk|self' h' Hd Hrej Hk Ho Hb|self' h' Hd Hrej Hk Ho Hb].
  - split; [done|]. by rewrite Hk.
  - split; [by rewrite Hk|]. intros _. split; [done|].
    exists o. destruct Hd as (_ & _ & _ & _ & _ & ->). by repeat split; [left|..].
  - split; [by rewrite Hk|]. intros _. split; [done|].
    exists (use_body o). by repeat split; [right|..].
Qed.

Lemma reachable_bounds self h :
  reachable rejects o h0 self h ->
  (length (objects h) <= S (length (objects h0)))%nat /\
  (bodyReads h <= S (bodyReads h0))%nat.
Proof.
  intros [self' _ _|self' h' _ _ _ Ho Hb|self' h' _ _ _ Ho Hb].
  - lia.
  - rewrite Ho, Hb, length_app. simpl. lia.
  - rewrite Ho, Hb, length_app. simpl. lia.
Qed.

End MaterializationProperties.

(** Two promotions around a read of the body, and a second read. *)
Example materialization_example :
  fst (fst (perform_all (fun _ => None)
              [Promote; ConsumeBody; ReadBodyUsed; Promote; ConsumeBody]
              (createLazyRequest "POST" "http://localhost/upload" []
                 (Some BridgeReadable))
              {| objects := []; bodyReads := 0 |}))
  = [VRef 0; VConsumed; VBool true; VRef 0; VThrow "TypeError"].
Proof. reflexivity. Qed.

(** C6. Promotion is idempotent: from a fresh descriptor and over any
    sequence of operations on it, every promotion gives the same result,
    the reference of the one object built (or the constructor's error,
    when the native constructor refuses the arguments); at most one
    object is built, and the body stream is read at most once.  The
    reference is memoized on the descriptor and holds, just behind the
    objects that were there, the object built from the descriptor's URL,
    method, header pairs and body (half duplex for a stream), with its
    body marked used exactly when the stream has been read; while only
    captured fields are read, or when the constructor refuses, nothing
    is built and nothing is memoized. *)
Theorem C6_materialization_idempotent
    (rejects : RequestObject -> option string)
    (method url : string) (headersData : list (string * string))
    (body : option BodyHandle) (h : Heap) (ops : list RequestOp) :
  let o := {| ro_url := url; ro_method := method; ro_headers := headersData;
              ro_body := body;
              ro_duplex := match body with
                           | Some _ => Some "half"
                           | None => None
                           end;
              ro_bodyUsed := false |} in
  let result :=
    perform_all rejects ops (createLazyRequest method url headersData body) h in
  (forall i, ops !! i = Some Promote ->
             fst (fst result) !! i =
             Some (match rejects o with
                   | Some e => VThrow e
                   | None => VRef (length (objects h))
                   end)) /\
  (length (objects (snd result)) <= S (length (objects h)))%nat /\
  (bodyReads (snd result) <= S (bodyReads h))%nat /\
  (rejects o = None ->
   existsb (fun op => negb (reads_captured_field op)) ops = true ->
   requestCacheKey (snd (fst result)) = Some (length (objects h)) /\
   exists o',
     (o' = o \/ o' = use_body o) /\
     objects (snd result) = objects h ++ [o'] /\
     objects (snd result) !! length (objects h) = Some o' /\
     bodyReads (snd result) = if ro_bodyUsed o' then S (bodyReads h)
                              else bodyReads h) /\
  (rejects o <> None \/ forallb reads_captured_field ops = true ->
   snd result = h /\ requestCacheKey (snd (fst result)) = None).
Proof.
  intros o result.
  assert (Hr : reachable rejects o h
                 (createLazyRequest method url headersData body) h).
  { apply still_lazy; [|done]. by repeat split. }
  destruct (perform_all_reachable rejects o h ops _ _ Hr) as [Hr' Hall].
  destruct (perform_all_key rejects o h ops _ _ Hr) as [Hread Hset].
  destruct (reachable_inv rejects o h _ _ Hr') as [Hlazy Hbuilt].
  split; [exact Hall|].
  destruct (reachable_bounds rejects o h _ _ Hr') as [Hlen Hreads].
  split; [exact Hlen|]. split; [exact Hreads|]. split.
  - intros Hrej Hex. fold result in Hset, Hbuilt.
    assert (Hk : requestCacheKey (snd (fst result))
                 = Some (length (objects h))) by (apply Hset; auto).
    split; [exact Hk|].
    destruct Hbuilt as (_ & o' & Ho' & Hobj & Hb); [by rewrite Hk|].
    exists o'. repeat split; try done.
    rewrite Hobj. apply lookup_fresh.
  - intros Hcase. fold result in Hread, Hlazy, Hbuilt.
    assert (Hk : requestCacheKey (snd (fst result)) = None).
    { destruct Hcase as [Hrej|Hreadonly]; [|by rewrite Hread].
      destruct (requestCacheKey (snd (fst result))) eqn:Hk; [|done].
      destruct Hbuilt as [Hnone _]; [done|]. done. }
    split; [by apply Hlazy|exact Hk].
Qed.

(* ====================================================================== *)
(** ** Properties of the upgrade bridge                                   *)
(* ====================================================================== *)

Lemma invoke_fetched {A} name (cb : Callback A) arg s :
  fetched (snd (invoke name cb arg s)) = fetched s.
Proof. unfold invoke. by destruct (cb arg) as [cs [e|]]. Qed.

Lemma open_with_handler_fetched handler s :
  fetched (open_with_handler handler s) = fetched s.
Proof.
  unfold open_with_handler. destruct (handler _) as [evs|e]; [|done].
  destruct (onOpen evs) as [cb|]; [|done].
  match goal with
  | |- context [invoke OnOpen cb tt ?s1] =>
      pose proof (invoke_fetched OnOpen cb tt s1) as Hf;
      destruct (invoke OnOpen cb tt s1) as [[[]|e] s2]
  end; simpl in *; by rewrite Hf.
Qed.

(** C7. When the path of a session being opened has no registered
    handler, exactly one synthetic request, built from the captured URL
    and headers, is sent to the application; and when the response's
    status is not 101, or the registry still has no handler for the path
    afterwards, the session is ended with code 1008, no callback is
    invoked and no callback set is stored on the session. *)
Theorem C7_unregistered_path_closes_1008
    (pathname : string -> Completion string)
    (app : LazyRequest -> gmap string WSHandler ->
           Completion HonoResponse * gmap string WSHandler)
    (s : Session) (wsHandlers : gmap string WSHandler) (path : string) :
  pathname (url (data s)) = Normal path ->
  wsHandlers !! path = None ->
  let request :=
    createLazyRequest "GET" (url (data s)) (headers (data s)) None in
  let result := open pathname app s wsHandlers in
  fetched (snd (fst result)) = fetched s ++ [request] /\
  forall response status,
    fst (app request wsHandlers) = Normal response ->
    fst (response_status response) = Normal status ->
    status <> 101%Z \/ snd (app request wsHandlers) !! path = None ->
    fst (fst result) = Normal tt /\
    calls (snd (fst result))
    = calls s ++ [WsEnd (Some 1008%Z) (Some "Not Found")] /\
    invoked (snd (fst result)) = invoked s /\
    console (snd (fst result)) = console s /\
    data (snd (fst result)) = data s.
Proof.
  intros Hpath Hnone request result. subst result. unfold open.
  rewrite Hpath, Hnone. fold request.
  destruct (app request wsHandlers) as [[response|e] wsHandlers'];
    cbn [fst snd]; [|split; [done|intros ? ? [=]]].
  destruct (response_status response) as [[status|e] response'] eqn:Hrs;
    cbn [fst snd].
  2: { split; [done|]. intros ? ? [= <-]. by rewrite Hrs. }
  destruct (status =? 101)%Z eqn:Hst; cbn [negb].
  - apply Z.eqb_eq in Hst as ->.
    destruct (wsHandlers' !! path) as [handler|] eqn:Hh; cbn [fst snd].
    + split; [by rewrite open_with_handler_fetched|].
      intros ? ? [= <-]. rewrite Hrs. intros [= <-] [Hne|Hreg]; [done|].
      cbn [snd] in Hreg. congruence.
    + split; [done|]. by intros ? ? _ _ _.
  - split; [done|]. by intros ? ? _ _ _.
Qed.

Lemma C7_unregistered_path_closes_1008_witness :
  let s := {| data := {| url := "http://localhost/nowhere"; headers := [];
                         events := None; context := None |};
              calls := []; console := []; invoked := []; fetched := [] |} in
  let app := fun (_ : LazyRequest) (reg : gmap string WSHandler) =>
               (Normal (Lightweight
                          (new_LightweightResponse (Some (BString "Not Found"))
                             (Some {| init_status := Some 404%Z;
                                      init_statusText := None;
                                      init_headers := None |}))), reg) in
  calls (snd (fst (open (fun _ => Normal "/nowhere") app s ∅)))
  = [WsEnd (Some 1008%Z) (Some "Not Found")] /\
  invoked (snd (fst (open (fun _ => Normal "/nowhere") app s ∅))) = [].
Proof.
  intros s app.
  pose proof (C7_unregistered_path_closes_1008
                (fun _ => Normal "/nowhere") app s ∅ "/nowhere"
                eq_refl (lookup_empty _)) as [_ H].
  pose proof (H _ 404%Z eq_refl eq_refl) as H2.
  assert (H3 : 404%Z <> 101%Z) by discriminate.
  destruct (H2 (or_introl H3)) as (_ & Hc & Hi & _).
  split; [exact Hc|exact Hi].
Defined.

(** An error thrown by the handler factory or by [onOpen] is caught in
    [open]: it is logged and the session is ended with 1011. *)
Lemma open_catches_onOpen pathname app (handler : WSHandler) evs cb cs e
    (s : Session) (wsHandlers : gmap string WSHandler) path :
  pathname (url (data s)) = Normal path ->
  wsHandlers !! path = Some handler ->
  (forall c, handler c = Normal evs) ->
  onOpen evs = Some cb -> cb tt = (cs, Some e) ->
  let result := open pathname app s wsHandlers in
  fst (fst result) = Normal tt /\
  console (snd (fst result))
  = console s ++ ["WebSocket handler error: " +:+ e] /\
  calls (snd (fst result))
  = calls s ++ map createWSContext cs
    ++ [WsEnd (Some 1011%Z) (Some "Internal Error")].
Proof.
  intros Hp Hh Hev Ho Hcb. unfold open. rewrite Hp, Hh. cbn [fst snd].
  unfold open_with_handler. rewrite Hev, Ho. unfold invoke. rewrite Hcb.
  simpl. by rewrite <- app_assoc.
Qed.

(** C8. An exception thrown by [onMessage] or by [onClose] is not
    caught: the [message] and [close] callbacks throw it to their
    caller, the transport; nothing is logged and the session is not
    ended with 1011. *)
Theorem C8_callback_exception_escapes (e : string) (msg : list byte)
    (isBinary : bool) (code : Z) :
  let s := session_with (Some (throwing_events e)) in
  message s msg isBinary
  = (Throw e,
     {| data := data s; calls := []; console := [];
        invoked := [OnMessage]; fetched := [] |}) /\
  close s code msg
  = (Throw e,
     {| data := data s; calls := []; console := [];
        invoked := [OnClose]; fetched := [] |}).
Proof. done. Qed.

(* ====================================================================== *)
(** ** Properties of the request handler                                  *)
(* ====================================================================== *)

Lemma after_async_fields c o :
  bodyStream (after_async c o) = bodyStream c /\
  request (after_async c o) = request c.
Proof. by destruct o. Qed.

Lemma write_response_fields c r :
  bodyStream (write_response c r) = bodyStream c /\
  request (write_response c r) = request c.
Proof.
  unfold write_response. destruct (fst _); [done|apply after_async_fields].
Qed.

Lemma has_no_body_iff method :
  has_no_body method = true <->
  method = "GET" \/ method = "HEAD" \/ method = "OPTIONS".
Proof.
  unfold has_no_body. rewrite !orb_true_iff, !String.eqb_eq. tauto.
Qed.

(** What the handler sets up before it calls the application. *)
Lemma any_setup app protocol res0 req :
  let method := toUpperCase (getMethod req) in
  let c := any app protocol res0 req in
  request c =
    createLazyRequest method (urlString protocol req) (forEach req)
      (if has_no_body method then None else Some BridgeReadable) /\
  bodyStream c =
    (if has_no_body method then None else Some new_TransformStream) /\
  uWS.dataHandler (res c) =
    (if has_no_body method then uWS.dataHandler res0 else Some WriteToBridge).
Proof.
  unfold any. destruct (has_no_body _); cbn [getBody];
    (destruct (app _) as [r| |e]; [|done|done]);
    match goal with
    | |- context [write_response ?c ?r] =>
        destruct (write_response_fields c r) as [-> ->];
        destruct (write_response_handlers c r) as [-> _]
    end; done.
Qed.

(** C9. For a request with a body the abort handler of the bridge is
    displaced by the one of the request handler: the abort notification
    sets the flag, the stream stays open and a pending read stays
    pending.  The bridge alone would have errored the stream. *)
Theorem C9_abort_leaves_body_stream_open app protocol :
  let c := any app protocol uWS.fresh post_request in
  bodyStream c = Some new_TransformStream /\
  uWS.abortedHandler (res c) = Some SetAborted /\
  aborted (step c Abort) = true /\
  bodyStream (step c Abort) = Some new_TransformStream /\
  reader_read new_TransformStream = ReadPending /\
  uWS.abortedHandler (snd (getBody uWS.fresh)) = Some AbortWriter /\
  reader_read (writer_abort (fst (getBody uWS.fresh))) = ReadError.
Proof.
  intros c. subst c.
  destruct (any_setup app protocol uWS.fresh post_request) as (_ & Hs & _).
  pose proof (any_aborted_handler app protocol uWS.fresh post_request) as Hh.
  cbv zeta in Hs. change (has_no_body _) with false in Hs.
  split; [exact Hs|]. split; [exact Hh|].
  simpl. unfold run_aborted. rewrite Hh. cbn [aborted bodyStream].
  by rewrite Hs.
Qed.

(** C10. The method, upper-cased, decides the body handle: for GET, HEAD
    and OPTIONS the lazy request has no body and no bridge is created;
    for every other method the bridge is created, its data handler is
    registered and its readable side is the body of the lazy request. *)
Theorem C10_body_bridge_by_method app protocol res0 req :
  let method := toUpperCase (getMethod req) in
  let c := any app protocol res0 req in
  methodKey (request c) = method /\
  ((method = "GET" \/ method = "HEAD" \/ method = "OPTIONS") ->
   bodyKey (request c) = None /\ bodyStream c = None /\
   uWS.dataHandler (res c) = uWS.dataHandler res0) /\
  (~ (method = "GET" \/ method = "HEAD" \/ method = "OPTIONS") ->
   bodyKey (request c) = Some BridgeReadable /\
   bodyStream c = Some new_TransformStream /\
   uWS.dataHandler (res c) = Some WriteToBridge).
Proof.
  intros method c.
  destruct (any_setup app protocol res0 req) as (Hr & Hs & Hd).
  fold method c in Hr, Hs, Hd. rewrite Hr, Hs, Hd.
  split; [done|]. rewrite <- has_no_body_iff.
  destruct (has_no_body method); split; done.
Qed.

(* ====================================================================== *)
(** ** Further properties: the response writer                            *)
(* ====================================================================== *)

Lemma written_writeHeaders r ch :
  uWS.written (writeHeaders r ch)
  = uWS.written r ++ header_ops (header_entries ch).
Proof. destruct ch; apply written_fold. Qed.

Lemma fast_path_batch r status body ch :
  writeResponseViaCache r (status, body, ch) false = (false, r) /\
  simple_body_bytes body = None
  \/
  exists payload,
    fst (writeResponseViaCache r (status, body, ch) false) = true /\
    uWS.written (snd (writeResponseViaCache r (status, body, ch) false))
    = uWS.written r
      ++ uWS.WriteStatus (Number_toString status)
         :: header_ops (header_entries ch)
      ++ [uWS.End (Some payload)] /\
    simple_body_bytes body = Some (uWS.end_bytes (Some payload)).
Proof.
  destruct body as [s|b|rs|t b|b|s]; try (left; split; reflexivity);
    right; [exists (uWS.RString s)|exists (uWS.RBytes b)];
    (split; [reflexivity|]); (split; [|reflexivity]);
    cbn [writeResponseViaCache snd uWS.end_ uWS.write uWS.written];
    rewrite written_writeHeaders; simpl; by rewrite <- !app_assoc.
Qed.

(** X1. The fast path is all or nothing: on a live connection it either
    declines (a stream, [Blob] or other body) and leaves the response
    untouched, or appends one complete batch: the status, the header
    lines of the triple in order, and the body as captured. *)
Theorem X1_fast_path_all_or_nothing r status body ch :
  writeResponseViaCache r (status, body, ch) false = (false, r) /\
  simple_body_bytes body = None
  \/
  exists payload,
    fst (writeResponseViaCache r (status, body, ch) false) = true /\
    uWS.written (snd (writeResponseViaCache r (status, body, ch) false))
    = uWS.written r
      ++ uWS.WriteStatus (Number_toString status)
         :: header_ops (header_entries ch)
      ++ [uWS.End (Some payload)] /\
    simple_body_bytes body = Some (uWS.end_bytes (Some payload)).
Proof. apply fast_path_batch. Qed.

Lemma count_ends_app l1 l2 :
  count_ends (l1 ++ l2) = (count_ends l1 + count_ends l2)%nat.
Proof. unfold count_ends. by rewrite List.filter_app, length_app. Qed.

Lemma count_statuses_app l1 l2 :
  count_statuses (l1 ++ l2) = (count_statuses l1 + count_statuses l2)%nat.
Proof. unfold count_statuses. by rewrite List.filter_app, length_app. Qed.

Lemma count_header_ops l :
  count_ends (header_ops l) = 0%nat /\ count_statuses (header_ops l) = 0%nat.
Proof. induction l as [|kv l [IH1 IH2]]; [done|]. by split. Qed.

Lemma one_batch_refl l : one_batch l l.
Proof.
  exists []. rewrite app_nil_r.
  unfold count_ends, count_statuses. repeat split; simpl; lia.
Qed.

Lemma one_batch_via_cache r cache a :
  one_batch (uWS.written r)
            (uWS.written (snd (writeResponseViaCache r cache a))).
Proof.
  destruct a; [apply one_batch_refl|]. destruct cache as [[status body] ch].
  destruct (fast_path_batch r status body ch)
    as [[-> _]|(payload & _ & -> & _)]; [apply one_batch_refl|].
  eexists; split; [reflexivity|].
  destruct (count_header_ops (header_entries ch)) as [He Hs].
  change (uWS.WriteStatus ?s :: ?l ++ ?e) with ([uWS.WriteStatus s] ++ l ++ e).
  rewrite !count_ends_app, !count_statuses_app, He, Hs.
    unfold count_ends, count_statuses. simpl. lia.
Qed.

Lemma one_batch_write_head r status resp :
  exists l,
    uWS.written (snd (write_head r status resp))
    = uWS.written r ++ uWS.WriteStatus (Number_toString status) :: header_ops l
    /\ forall r', fst (write_head r status resp) = Normal r' ->
                  r' = snd (write_head r status resp).
Proof.
  unfold write_head. destruct (response_headers resp) as [[h|e] r1]; simpl.
  - exists (Headers_entries h). split; [|by intros ? [= <-]].
    rewrite written_fold. simpl. by rewrite <- app_assoc.
  - exists []. split; [done|]. intros ? [=].
Qed.

Lemma one_batch_resume r s a :
  one_batch (uWS.written r)
            (uWS.written (outcome_res r (writeResponseAsync_resume r s a))).
Proof.
  destruct s as [st resp [text|e]|st resp [bs|e]]; simpl;
    try apply one_batch_refl;
    (destruct a; [apply one_batch_refl|]);
    destruct (one_batch_write_head r st resp) as (l & Hw & Hn);
    destruct (write_head r st resp) as [[r'|e] r'']; simpl in *.
  - rewrite (Hn _ eq_refl), Hw. eexists. rewrite <- app_assoc.
    split; [reflexivity|].
    destruct (count_header_ops l) as [He Hs].
    change (uWS.WriteStatus ?s :: ?l) with ([uWS.WriteStatus s] ++ l).
    rewrite !count_ends_app, !count_statuses_app, He, Hs.
    unfold count_ends, count_statuses. simpl. lia.
  - rewrite Hw. eexists. split; [reflexivity|].
    destruct (count_header_ops l) as [He Hs].
    change (uWS.WriteStatus ?s :: ?l) with ([uWS.WriteStatus s] ++ l).
    rewrite !count_ends_app, !count_statuses_app, He, Hs.
    unfold count_ends, count_statuses. simpl. lia.
  - rewrite (Hn _ eq_refl).
    assert (Hend : forall b,
      one_batch (uWS.written r) (uWS.written (uWS.end_ r'' b))).
    { intros b. simpl. rewrite Hw. eexists. rewrite <- app_assoc.
      split; [reflexivity|].
      destruct (count_header_ops l) as [He Hs].
      change (uWS.WriteStatus ?s :: ?l) with ([uWS.WriteStatus s] ++ l).
      rewrite !count_ends_app, !count_statuses_app, He, Hs.
    unfold count_ends, count_statuses. simpl. lia. }
    destruct (0 <? _)%nat; apply Hend.
  - rewrite Hw. eexists. split; [reflexivity|].
    destruct (count_header_ops l) as [He Hs].
    change (uWS.WriteStatus ?s :: ?l) with ([uWS.WriteStatus s] ++ l).
    rewrite !count_ends_app, !count_statuses_app, He, Hs.
    unfold count_ends, count_statuses. simpl. lia.
Qed.

(** Once the handling of a request is settled, no event writes. *)
Lemma settled_is_final c ev :
  continuation c = Settled ->
  continuation (step c ev) = Settled /\ res (step c ev) = res c /\
  uncaught (step c ev) = uncaught c.
Proof.
  intros Hc. destruct ev as [|chunk isLast|p|]; simpl.
  - unfold run_aborted. by destruct (uWS.abortedHandler _) as [[]|].
  - unfold run_data. by destruct (uWS.dataHandler _) as [[]|].
  - by rewrite Hc.
  - by rewrite Hc.
Qed.

Lemma settled_run evs c :
  continuation c = Settled ->
  continuation (run c evs) = Settled /\ res (run c evs) = res c /\
  uncaught (run c evs) = uncaught c.
Proof.
  revert c; induction evs as [|ev evs IH]; intros c Hc; [done|].
  destruct (settled_is_final c ev Hc) as (Hc' & Hr & Hu).
  rewrite run_cons. destruct (IH _ Hc') as (? & ? & ?).
  repeat split; congruence.
Qed.

Lemma write_response_batch c r w0 :
  uWS.written (res c) = w0 ->
  (continuation (write_response c r) = Settled /\
   one_batch w0 (uWS.written (res (write_response c r))))
  \/ uWS.written (res (write_response c r)) = w0.
Proof.
  intros Hw. unfold write_response.
  destruct (response_cache r) as [cache|].
  - pose proof (one_batch_via_cache (res c) cache (aborted c)) as Hb.
    destruct (writeResponseViaCache _ _ _) as [[] r']; cbn [fst snd] in *.
    + left. split; [done|]. by rewrite <- Hw.
    + right. by rewrite after_async_res, start_writes_nothing.
  - right. cbn [fst]. by rewrite after_async_res, start_writes_nothing.
Qed.

Lemma step_batch c ev w0 :
  (continuation c = Settled /\ one_batch w0 (uWS.written (res c)))
  \/ uWS.written (res c) = w0 ->
  (continuation (step c ev) = Settled /\
   one_batch w0 (uWS.written (res (step c ev))))
  \/ uWS.written (res (step c ev)) = w0.
Proof.
  intros [[Hc Hb]|Hw].
  - destruct (settled_is_final c ev Hc) as (Hc' & Hr & _).
    left. by rewrite Hc', Hr.
  - destruct ev as [|chunk isLast|p|]; simpl.
    + right. unfold run_aborted. by destruct (uWS.abortedHandler _) as [[]|].
    + right. unfold run_data. by destruct (uWS.dataHandler _) as [[]|].
    + destruct (continuation c); try by right.
      destruct p as [response|e]; [|by right].
      destruct (aborted c); [by right|]. by apply write_response_batch.
    + destruct (continuation c) as [| |s]; try by right.
      pose proof (one_batch_resume (res c) s (aborted c)) as Hb.
      rewrite Hw in Hb.
      destruct (writeResponseAsync_resume (res c) s (aborted c));
        simpl in *; [by left|by left|by right].
Qed.

Lemma any_batch app protocol res0 req :
  let c := any app protocol res0 req in
  (continuation c = Settled /\
   one_batch (uWS.written res0) (uWS.written (res c)))
  \/ uWS.written (res c) = uWS.written res0.
Proof.
  unfold any. destruct (has_no_body _); cbn [getBody];
    (destruct (app _) as [r| |e]; [|by right|by right]);
    by apply write_response_batch.
Qed.

(** X2. One response, one batch: whatever the application answers and
    whatever events follow, the handler and its continuations add to the
    writes of the response at most one status and at most one body. *)
Theorem X2_at_most_one_batch app protocol res0 req evs :
  exists batch,
    uWS.written (res (run (any app protocol res0 req) evs))
    = uWS.written res0 ++ batch /\
    (count_ends batch <= 1)%nat /\ (count_statuses batch <= 1)%nat.
Proof.
  assert (H : forall c,
    (continuation c = Settled /\
     one_batch (uWS.written res0) (uWS.written (res c)))
    \/ uWS.written (res c) = uWS.written res0 ->
    one_batch (uWS.written res0) (uWS.written (res (run c evs)))).
  { induction evs as [|ev evs IH]; intros c Hc.
    - change (run c []) with c.
      destruct Hc as [[_ Hb]|Hw]; [exact Hb|rewrite Hw; apply one_batch_refl].
    - rewrite run_cons. apply IH. by apply step_batch. }
  apply H. apply any_batch.
Qed.

(** X3. When the application's promise rejects, or the application
    throws, nothing is ever written for the request: the error reaches no
    handler and no later event produces a response. *)
Theorem X3_rejection_never_answered protocol res0 req e evs :
  (let c := run (any (fun _ => FetchPromise) protocol res0 req)
                (FetchSettles (Throw e) :: evs) in
   uWS.written (res c) = uWS.written res0 /\ uncaught c = [e]) /\
  (let c := run (any (fun _ => FetchThrows e) protocol res0 req) evs in
   uWS.written (res c) = uWS.written res0 /\ uncaught c = [e]).
Proof.
  split; intros c; subst c.
  - rewrite run_cons.
    match goal with
    | |- context [run ?c0 evs] =>
        assert (Hc : continuation c0 = Settled)
          by (unfold any; by destruct (has_no_body _));
        destruct (settled_run evs c0 Hc) as (_ & -> & ->)
    end.
    unfold any. by destruct (has_no_body _).
  - match goal with
    | |- context [run ?c0 evs] =>
        assert (Hc : continuation c0 = Settled)
          by (unfold any; by destruct (has_no_body _));
        destruct (settled_run evs c0 Hc) as (_ & -> & ->)
    end.
    unfold any. by destruct (has_no_body _).
Qed.


Lemma wire_header_ops l :
  map uWS.wire_item (header_ops l)
  = map (fun kv => uWS.HeaderLine (fst kv) (snd kv)) l.
Proof. unfold header_ops. rewrite map_map. done. Qed.



(** X5. The async path on a native response whose body resolves: it
    returns having appended one batch, the status, the header lines in
    iteration order and the body bytes as resolved, or their text
    decoding when the content type is sniffed as text; a body of no
    bytes still gets its terminator. *)
Theorem X5_async_path_writes_resolved_body r n bs :
  fst (Response_arrayBuffer n) = Normal bs ->
  exists r',
    writeResponseAsync r (NativeResponse n) = Returned r' /\
    uWS.wire r'
    = uWS.wire r
      ++ uWS.StatusLine (Number_toString (rsp_status n))
         :: map (fun kv => uWS.HeaderLine (fst kv) (snd kv))
                (Headers_entries (rsp_headers n))
      ++ [uWS.Body
            (if sniffs_as_text (Headers_get (rsp_headers n) "content-type")
             then utf8_encode (utf8_decode bs) else bs)].
Proof.
  intros Hbs.
  assert (Hwire : forall body,
    uWS.wire
      (uWS.end_
         (fold_left (fun res kv => uWS.writeHeader res (fst kv) (snd kv))
            (Headers_entries (rsp_headers n))
            (uWS.writeStatus r (Number_toString (rsp_status n)))) body)
    = uWS.wire r
      ++ uWS.StatusLine (Number_toString (rsp_status n))
         :: map (fun kv => uWS.HeaderLine (fst kv) (snd kv))
                (Headers_entries (rsp_headers n))
      ++ [uWS.Body (uWS.end_bytes body)]).
  { intros body. rewrite wire_end. unfold uWS.wire at 1.
    rewrite written_fold. cbn [uWS.writeStatus uWS.write uWS.written].
    rewrite !map_app. fold (header_ops (Headers_entries (rsp_headers n))).
    rewrite wire_header_ops. unfold uWS.wire. simpl.
    by rewrite <- !app_assoc. }
  assert (Hh : rsp_headers (snd (Response_arrayBuffer n)) = rsp_headers n).
  { unfold Response_arrayBuffer. destruct (rsp_body n); [|done].
    destruct (rsp_bodyUsed n); [done|]. by destruct (body_bytes _). }
  unfold writeResponseAsync, writeResponseAsync_start.
  cbn [response_headers response_status].
  destruct (sniffs_as_text _).
  - unfold response_text, Response_text.
    destruct (Response_arrayBuffer n) as [[bs'|e] n']; cbn [fst snd] in *;
      [|done]. injection Hbs as ->.
    cbn [writeResponseAsync_resume write_head response_headers]. rewrite Hh.
    eexists. split; [reflexivity|]. apply Hwire.
  - unfold response_arrayBuffer.
    destruct (Response_arrayBuffer n) as [[bs'|e] n']; cbn [fst snd] in *;
      [|done]. injection Hbs as ->.
    cbn [writeResponseAsync_resume write_head response_headers]. rewrite Hh.
    destruct (0 <? length bs)%nat eqn:Hlen.
    + eexists. split; [reflexivity|]. apply Hwire.
    + eexists. split; [reflexivity|]. rewrite Hwire.
      destruct bs; [done|]. simpl in Hlen. done.
Qed.

Lemma X5_async_path_writes_resolved_body_witness :
  exists r',
    writeResponseAsync uWS.fresh
      (NativeResponse
         {| rsp_status := 200; rsp_headers := [];
            rsp_body := Some (BReadableStream
                                {| chunks := [[x68]; []; [x69]];
                                   errors := false |});
            rsp_bodyUsed := false |}) = Returned r' /\
    uWS.wire r' = [uWS.StatusLine "200"; uWS.Body [x68; x69]].
Proof.
  apply (X5_async_path_writes_resolved_body uWS.fresh
           {| rsp_status := 200; rsp_headers := [];
              rsp_body := Some (BReadableStream
                                  {| chunks := [[x68]; []; [x69]];
                                     errors := false |});
              rsp_bodyUsed := false |} [x68; x69]).
  reflexivity.
Defined.

(** X6. When the body of a native response does not resolve (its stream
    errors, or it has been consumed before), the async path rejects with
    that error and writes nothing, not even the status. *)
Theorem X6_failed_body_writes_nothing r n e :
  fst (Response_arrayBuffer n) = Throw e ->
  writeResponseAsync r (NativeResponse n) = Rejected e r.
Proof.
  intros He. unfold writeResponseAsync, writeResponseAsync_start.
  cbn [response_headers response_status].
  destruct (sniffs_as_text _).
  - unfold response_text, Response_text.
    destruct (Response_arrayBuffer n) as [[bs|e'] n']; cbn [fst] in He;
      [done|]. by injection He as ->.
  - unfold response_arrayBuffer.
    destruct (Response_arrayBuffer n) as [[bs|e'] n']; cbn [fst] in He;
      [done|]. by injection He as ->.
Qed.

Lemma X6_failed_body_writes_nothing_witness :
  writeResponseAsync uWS.fresh
    (NativeResponse
       {| rsp_status := 200;
          rsp_headers := new_Headers [("content-type", "text/plain")];
          rsp_body := Some (BString "already read");
          rsp_bodyUsed := true |})
  = Rejected "TypeError" uWS.fresh.
Proof.
  apply (X6_failed_body_writes_nothing uWS.fresh
           {| rsp_status := 200;
              rsp_headers := new_Headers [("content-type", "text/plain")];
              rsp_body := Some (BString "already read");
              rsp_bodyUsed := true |} "TypeError").
  reflexivity.
Defined.

Lemma wire_batch r status l body :
  uWS.wire
    (uWS.end_
       (fold_left (fun res kv => uWS.writeHeader res (fst kv) (snd kv)) l
          (uWS.writeStatus r status)) body)
  = uWS.wire r
    ++ uWS.StatusLine status
       :: map (fun kv => uWS.HeaderLine (fst kv) (snd kv)) l
    ++ [uWS.Body (uWS.end_bytes body)].
Proof.
  rewrite wire_end. unfold uWS.wire at 1.
  rewrite written_fold. cbn [uWS.writeStatus uWS.write uWS.written].
  rewrite !map_app. fold (header_ops l).
  rewrite wire_header_ops. unfold uWS.wire. simpl.
  by rewrite <- !app_assoc.
Qed.

Lemma wire_written r0 r :
  uWS.written r0 = uWS.written r -> uWS.wire r0 = uWS.wire r.
Proof. unfold uWS.wire. by intros ->. Qed.

Lemma stream_response_async r rs init n :
  new_Response (Some (BReadableStream rs)) init = Normal n ->
  errors rs = false ->
  exists s,
    writeResponseAsync_start r
      (Lightweight (new_LightweightResponse (Some (BReadableStream rs)) init))
      false = Suspend s /\
    forall r0, uWS.written r0 = uWS.written r ->
    exists r',
      writeResponseAsync_resume r0 s false = Returned r' /\
      uWS.wire r'
      = uWS.wire r
        ++ uWS.StatusLine (Number_toString (captured_status init))
           :: map (fun kv => uWS.HeaderLine (fst kv) (snd kv))
                  (Headers_entries (rsp_headers n))
        ++ [uWS.Body
              (if sniffs_as_text
                    (Headers_get (headers_of_cache (captured_headers init))
                       "content-type")
               then utf8_encode (utf8_decode (concat (chunks rs)))
               else concat (chunks rs))].
Proof.
  intros Hn He. destruct (new_Response_body _ _ _ Hn) as [Hb Hu].
  destruct (new_Response_inv _ _ _ Hn) as (h0 & Hh0 & _).
  unfold writeResponseAsync_start.
  cbn [response_headers new_LightweightResponse cacheable
       LightweightResponse_headers cacheKey body_ init_ responseCache].
  rewrite (captured_headers_convert _ _ Hh0).
  cbn [response_status LightweightResponse_status cacheKey body_ init_
       responseCache].
  destruct (sniffs_as_text _).
  - unfold response_text, LightweightResponse_text,
      LightweightResponse_consume, getResponseCache.
    cbn [responseCache body_ init_]. rewrite Hn.
    unfold Response_text, Response_arrayBuffer. rewrite Hb, Hu.
    cbn [body_bytes]. rewrite He.
    eexists. split; [reflexivity|]. intros r0 Hr0.
    cbn [writeResponseAsync_resume write_head response_headers
         LightweightResponse_headers cacheKey getResponseCache responseCache
         rsp_headers body_ init_].
    eexists. split; [reflexivity|].
    rewrite wire_batch. by rewrite (wire_written _ _ Hr0).
  - unfold response_arrayBuffer, LightweightResponse_arrayBuffer,
      LightweightResponse_consume, getResponseCache.
    cbn [responseCache body_ init_]. rewrite Hn.
    unfold Response_arrayBuffer. rewrite Hb, Hu.
    cbn [body_bytes]. rewrite He.
    eexists. split; [reflexivity|]. intros r0 Hr0.
    cbn [writeResponseAsync_resume write_head response_headers
         LightweightResponse_headers cacheKey getResponseCache responseCache
         rsp_headers body_ init_].
    destruct (0 <? length (concat (chunks rs)))%nat eqn:Hlen.
    + eexists. split; [reflexivity|].
      rewrite wire_batch. by rewrite (wire_written _ _ Hr0).
    + eexists. split; [reflexivity|].
      rewrite wire_batch, (wire_written _ _ Hr0).
      destruct (concat (chunks rs)); [done|]. simpl in Hlen. done.
Qed.

(** X7. A lightweight response with a stream body returned synchronously
    is not written by the handler; it is written when the body promise
    settles, as one batch: the captured status, the header lines of the
    native response and the chunks of the stream in order, decoded as
    text when the captured content type is sniffed as text. *)
Theorem X7_stream_response_written_after_body protocol req rs init n :
  new_Response (Some (BReadableStream rs)) init = Normal n ->
  errors rs = false ->
  let c := any (fun _ => FetchResponse
                           (Lightweight
                              (new_LightweightResponse
                                 (Some (BReadableStream rs)) init)))
               protocol uWS.fresh req in
  uWS.wire (res c) = [] /\
  continuation (step c BodySettles) = Settled /\
  uWS.wire (res (step c BodySettles))
  = uWS.StatusLine (Number_toString (captured_status init))
    :: map (fun kv => uWS.HeaderLine (fst kv) (snd kv))
           (Headers_entries (rsp_headers n))
    ++ [uWS.Body
          (if sniffs_as_text
                (Headers_get (headers_of_cache (captured_headers init))
                   "content-type")
           then utf8_encode (utf8_decode (concat (chunks rs)))
           else concat (chunks rs))].
Proof.
  intros Hn He c. subst c. unfold any.
  destruct (has_no_body _); cbn [getBody]; unfold write_response;
    cbn [response_cache new_LightweightResponse cacheable cacheKey
         writeResponseViaCache fst snd res aborted];
    match goal with
    | |- context [writeResponseAsync_start ?r0 _ false] =>
        destruct (stream_response_async r0 rs init n Hn He) as (s & Hs & Hr);
        cbn [new_LightweightResponse cacheable] in Hs; rewrite Hs;
        destruct (Hr r0 eq_refl) as (r' & Hres & Hw)
    end;
    cbn [after_async res step continuation aborted]; rewrite Hres;
    cbn [after_async res continuation]; by rewrite Hw.
Qed.

Lemma X7_stream_response_written_after_body_witness :
  uWS.wire
    (res (step
            (any (fun _ => FetchResponse
                             (Lightweight
                                (new_LightweightResponse
                                   (Some (BReadableStream
                                            {| chunks := [[x68]; [x69]];
                                               errors := false |}))
                                   None)))
                 "http" uWS.fresh post_request)
            BodySettles))
  = [uWS.StatusLine "200"; uWS.Body [x68; x69]].
Proof.
  refine (proj2 (proj2
    (X7_stream_response_written_after_body "http" post_request
       {| chunks := [[x68]; [x69]]; errors := false |} None
       {| rsp_status := 200; rsp_headers := [];
          rsp_body := Some (BReadableStream
                              {| chunks := [[x68]; [x69]];
                                 errors := false |});
          rsp_bodyUsed := false |} eq_refl eq_refl))).
Defined.

(* ====================================================================== *)
(** ** Further properties: the lightweight response                       *)
(* ====================================================================== *)

Lemma consume_keeps_used_response {A : Type}
    (m : Response -> Completion A * Response) r n n' :
  fst (getResponseCache r) = Normal n ->
  snd (m n) = n' ->
  responseCache (snd (LightweightResponse_consume m r)) = Some n' /\
  cacheKey (snd (LightweightResponse_consume m r)) = None.
Proof.
  intros Hn Hm. unfold LightweightResponse_consume.
  destruct (getResponseCache r) as [[n0|e] r'] eqn:Hg; cbn [fst] in Hn;
    [|done].
  injection Hn as ->. destruct (m n) as [v n1] eqn:Hmn. cbn [snd] in *.
  subst n1. split; [done|].
  assert (Hk : cacheKey r' = None).
  { unfold getResponseCache in Hg. destruct (responseCache r).
    - by injection Hg as _ <-.
    - destruct (new_Response _ _); by injection Hg as _ <-. }
  done.
Qed.

Lemma used_body_rejects n :
  rsp_body n <> None ->
  fst (Response_arrayBuffer (snd (Response_arrayBuffer n)))
  = Throw "TypeError" /\
  fst (Response_text (snd (Response_arrayBuffer n))) = Throw "TypeError".
Proof.
  intros Hb. unfold Response_text.
  assert (H : fst (Response_arrayBuffer (snd (Response_arrayBuffer n)))
              = Throw "TypeError").
  { destruct n as [st hs [b|] used]; cbn [rsp_body] in Hb; [|done].
    unfold Response_arrayBuffer at 2. cbn [rsp_body rsp_bodyUsed].
    destruct used; [done|].
    by destruct (body_bytes b). }
  split; [exact H|].
  destruct (Response_arrayBuffer (snd (Response_arrayBuffer n)))
    as [[bs|e] n'']; cbn [fst] in *; [done|congruence].
Qed.

Lemma text_consumes_like_arrayBuffer n :
  snd (Response_text n) = snd (Response_arrayBuffer n).
Proof.
  unfold Response_text. by destruct (Response_arrayBuffer n) as [[bs|e] n'].
Qed.

(** X8. Any access to the full response drops the captured triple, so
    the fast path is not taken afterwards, and the native response is
    built once and kept: the first access builds it from the body and
    the init and stores it; an access with one stored returns that
    object, whatever the body and the init are, and changes nothing.
    The body methods work on the stored object and store it back
    consumed, so a second [text()] or [arrayBuffer()] on a response with
    a body rejects with a [TypeError] instead of reading a rebuilt
    body. *)
Theorem X8_full_access_invalidates_triple (r : LightweightResponse) :
  cacheKey (snd (getResponseCache r)) = None /\
  response_cache (Lightweight (snd (LightweightResponse_text r))) = None /\
  response_cache (Lightweight (snd (LightweightResponse_arrayBuffer r)))
  = None /\
  (forall n, fst (getResponseCache r) = Normal n ->
             getResponseCache (snd (getResponseCache r))
             = (Normal n, snd (getResponseCache r))) /\
  (responseCache r = None ->
   fst (getResponseCache r) = new_Response (body_ r) (init_ r)) /\
  (forall n, responseCache r = Some n ->
             fst (getResponseCache r) = Normal n) /\
  (forall n, fst (getResponseCache r) = Normal n ->
             responseCache (snd (getResponseCache r)) = Some n /\
             responseCache (snd (LightweightResponse_text r))
             = Some (snd (Response_text n)) /\
             responseCache (snd (LightweightResponse_arrayBuffer r))
             = Some (snd (Response_arrayBuffer n))) /\
  (forall n, fst (getResponseCache r) = Normal n -> rsp_body n <> None ->
             fst (LightweightResponse_text
                    (snd (LightweightResponse_text r)))
             = Throw "TypeError" /\
             fst (LightweightResponse_arrayBuffer
                    (snd (LightweightResponse_text r)))
             = Throw "TypeError" /\
             fst (LightweightResponse_text
                    (snd (LightweightResponse_arrayBuffer r)))
             = Throw "TypeError" /\
             fst (LightweightResponse_arrayBuffer
                    (snd (LightweightResponse_arrayBuffer r)))
             = Throw "TypeError").
Proof.
  assert (Hk : cacheKey (snd (getResponseCache r)) = None).
  { unfold getResponseCache. destruct (responseCache r); [done|].
    by destruct (new_Response _ _). }
  assert (Hc : forall A (m : Response -> Completion A * Response),
    cacheKey (snd (LightweightResponse_consume m r)) = None).
  { intros A m. unfold LightweightResponse_consume.
    destruct (getResponseCache r) as [[n|e] r'] eqn:Hg; simpl in *.
    - by destruct (m n).
    - done. }
  assert (Hstored : forall n, fst (getResponseCache r) = Normal n ->
    responseCache (snd (getResponseCache r)) = Some n).
  { intros n. unfold getResponseCache.
    destruct (responseCache r) as [n0|]; cbn [fst snd responseCache].
    - by intros [= ->].
    - destruct (new_Response _ _); cbn [fst snd responseCache]; [|done].
      by intros [= ->]. }
  assert (Hagain : forall l n0 A (m : Response -> Completion A * Response),
    responseCache l = Some n0 ->
    fst (LightweightResponse_consume m l) = fst (m n0)).
  { intros l n0 A m Hl. unfold LightweightResponse_consume, getResponseCache.
    rewrite Hl. by destruct (m n0). }
  split; [exact Hk|]. split; [apply Hc|]. split; [apply Hc|]. split.
  { intros n. unfold getResponseCache at 1 3 4.
    destruct (responseCache r) as [n0|] eqn:Hr; simpl.
    + by intros [= ->].
    + destruct (new_Response _ _); simpl; [|done]. by intros [= ->]. }
  split.
  { intros Hr. unfold getResponseCache. rewrite Hr.
    by destruct (new_Response _ _). }
  split.
  { intros n Hr. unfold getResponseCache. by rewrite Hr. }
  split.
  { intros n Hn. split; [by apply Hstored|]. split.
    - by apply (consume_keeps_used_response Response_text r n).
    - by apply (consume_keeps_used_response Response_arrayBuffer r n). }
  intros n Hn Hb.
  destruct (used_body_rejects n Hb) as [Hab Htx].
  destruct (consume_keeps_used_response Response_text r n _ Hn eq_refl)
    as [Ht _].
  destruct (consume_keeps_used_response Response_arrayBuffer r n _ Hn eq_refl)
    as [Ha _].
  unfold LightweightResponse_text, LightweightResponse_arrayBuffer.
  rewrite (Hagain _ _ _ Response_text Ht),
    (Hagain _ _ _ Response_arrayBuffer Ht),
    (Hagain _ _ _ Response_text Ha),
    (Hagain _ _ _ Response_arrayBuffer Ha).
  rewrite text_consumes_like_arrayBuffer. done.
Qed.



(** A number above 65535 wraps around: the triple answers 65736, the
    native response built from the same init has status 200. *)
Example status_wraps_around :
  let r := new_LightweightResponse None
             (Some {| init_status := Some 65736%Z;
                      init_statusText := None;
                      init_headers := None |}) in
  fst (LightweightResponse_status r) = Normal 65736%Z /\
  fst (getResponseCache r)
  = Normal {| rsp_status := 200; rsp_headers := [];
              rsp_body := None; rsp_bodyUsed := false |}.
Proof. by vm_compute. Qed.



(** A record with a space in a header name: the headers getter throws,
    while the fast path, which never calls it, writes the line as
    given. *)
Example invalid_record_headers :
  let l := new_LightweightResponse (Some (BString "ok"))
             (Some {| init_status := None; init_statusText := None;
                      init_headers :=
                        Some (InitRecord [("bad name", "v")]) |}) in
  fst (LightweightResponse_headers l) = Throw "TypeError" /\
  fst (getResponseCache l) = Throw "TypeError" /\
  match cacheKey l with
  | Some cache =>
      uWS.wire (snd (writeResponseViaCache uWS.fresh cache false))
      = [uWS.StatusLine "200"; uWS.HeaderLine "bad name" "v";
         uWS.Body [x6f; x6b]]
  | None => False
  end.
Proof. by vm_compute. Qed.

(* ====================================================================== *)
(** ** Further properties: the lazy request                               *)
(* ====================================================================== *)

Lemma reads_keep_lazy rejects method url headersData body h ops self :
  forallb reads_captured_field ops = true ->
  methodKey self = method -> urlKey self = url ->
  headersDataKey self = headersData -> bodyKey self = body ->
  requestCacheKey self = None ->
  (headersKey self = None \/
   (valid_header_pairs headersData = true /\
    headersKey self = Some (new_Headers headersData))) ->
  let result := perform_all rejects ops self h in
  snd result = h /\ requestCacheKey (snd (fst result)) = None /\
  forall i op, ops !! i = Some op ->
    fst (fst result) !! i =
    Some (match op with
          | ReadMethod => VString method
          | ReadUrl => VString url
          | _ => if valid_header_pairs headersData
                 then VHeaders (new_Headers headersData)
                 else VThrow "TypeError"
          end).
Proof.
  revert self.
  induction ops as [|op ops IH]; intros self Hall Hm Hu Hd Hb Hk Hh.
  - simpl. repeat split; try done.
  - simpl in Hall. apply andb_true_iff in Hall as [Hop Hall].
    assert (Hstep : exists self',
      perform rejects op self h =
      (match op with
       | ReadMethod => VString method
       | ReadUrl => VString url
       | _ => if valid_header_pairs headersData
              then VHeaders (new_Headers headersData)
              else VThrow "TypeError"
       end, self', h) /\
      methodKey self' = method /\ urlKey self' = url /\
      headersDataKey self' = headersData /\ bodyKey self' = body /\
      requestCacheKey self' = None /\
      (headersKey self' = None \/
       (valid_header_pairs headersData = true /\
        headersKey self' = Some (new_Headers headersData)))).
    { destruct op; try discriminate Hop; cbn [perform].
      - exists self. subst. by repeat split.
      - exists self. subst. by repeat split.
      - unfold LazyRequest_headers. destruct Hh as [Hh|[Hv Hh]]; rewrite Hh.
        + rewrite Hd. unfold construct_Headers.
          destruct (valid_header_pairs headersData) eqn:Hv.
          * eexists. split; [reflexivity|]. cbn.
            repeat split; try done. by right.
          * exists self. split; [done|]. repeat split; try done. by left.
        + rewrite Hv. exists self. split; [done|].
          repeat split; try done. by right. }
    destruct Hstep as (self' & Hp & Hm' & Hu' & Hd' & Hb' & Hk' & Hh').
    simpl. rewrite Hp.
    specialize (IH self' Hall Hm' Hu' Hd' Hb' Hk' Hh').
    destruct (perform_all rejects ops self' h) as [[vs self''] h''].
    simpl in *. destruct IH as (-> & Hk'' & Hvs).
    repeat split; try done.
    intros [|i] op'; simpl.
    + by intros [= <-].
    + apply Hvs.
Qed.

(** X11. Reading [method], [url] and [headers] of a lazy request never
    builds the full request: the heap is left as it was, the descriptor
    stays unmaterialized, and every read answers from the captured data.
    [headers] answers with the collection of the captured pairs when the
    [Headers] constructor accepts them, and throws its [TypeError] at
    every read when a captured name or value is invalid. *)
Theorem X11_captured_fields_do_not_materialize
    (rejects : RequestObject -> option string) (method url : string)
    (headersData : list (string * string)) (body : option BodyHandle)
    (h : Heap) (ops : list RequestOp) :
  forallb reads_captured_field ops = true ->
  let result :=
    perform_all rejects ops (createLazyRequest method url headersData body) h in
  snd result = h /\ requestCacheKey (snd (fst result)) = None /\
  forall i op, ops !! i = Some op ->
    fst (fst result) !! i =
    Some (match op with
          | ReadMethod => VString method
          | ReadUrl => VString url
          | _ => if valid_header_pairs headersData
                 then VHeaders (new_Headers headersData)
                 else VThrow "TypeError"
          end).
Proof.
  intros Hall.
  apply (reads_keep_lazy rejects method url headersData body); try done.
  by left.
Qed.

Lemma X11_captured_fields_do_not_materialize_witness :
  let result :=
    perform_all (fun _ => None) [ReadHeaders; ReadMethod; ReadHeaders]
      (createLazyRequest "GET" "http://localhost/a"
         [("A", "1"); ("B", "2"); ("A", "3")] None)
      {| objects := []; bodyReads := 0 |} in
  snd result = {| objects := []; bodyReads := 0 |} /\
  requestCacheKey (snd (fst result)) = None.
Proof.
  destruct (X11_captured_fields_do_not_materialize (fun _ => None)
              "GET" "http://localhost/a" [("A", "1"); ("B", "2"); ("A", "3")]
              None {| objects := []; bodyReads := 0 |}
              [ReadHeaders; ReadMethod; ReadHeaders] eq_refl)
    as (H1 & H2 & _).
  split; [exact H1|exact H2].
Defined.

(** X12. The request the handler hands to the application, once
    promoted, is built from exactly what was captured: the reconstructed
    URL, the upper-cased method, the header pairs in arrival order with
    their duplicates, and the bridge as a half-duplex body unless the
    method is GET, HEAD or OPTIONS. *)
Theorem X12_promoted_request_carries_captured_data
    (rejects : RequestObject -> option string) app protocol res0 req h :
  let method := toUpperCase (getMethod req) in
  let o := {| ro_url := urlString protocol req;
              ro_method := method;
              ro_headers := forEach req;
              ro_body := if has_no_body method then None
                         else Some BridgeReadable;
              ro_duplex := if has_no_body method then None else Some "half";
              ro_bodyUsed := false |} in
  rejects o = None ->
  let result := getRequestCache rejects
                  (request (any app protocol res0 req)) h in
  fst (fst result) = Normal (length (objects h)) /\
  objects (snd result) = objects h ++ [o] /\
  requestCacheKey (snd (fst result)) = Some (length (objects h)).
Proof.
  intros method o Hrej result. subst result.
  destruct (any_setup app protocol res0 req) as (Hr & _ & _).
  fold method in Hr. rewrite Hr.
  unfold getRequestCache, new_LightweightRequest, createLazyRequest.
  cbn [requestCacheKey urlKey methodKey headersDataKey bodyKey].
  assert (Ho : {| ro_url := urlString protocol req; ro_method := method;
                  ro_headers := forEach req;
                  ro_body := if has_no_body method then None
                             else Some BridgeReadable;
                  ro_duplex :=
                    match (if has_no_body method then None
                           else Some BridgeReadable) with
                    | Some _ => Some "half"
                    | None => None
                    end;
                  ro_bodyUsed := false |} = o).
  { subst o. by destruct (has_no_body method). }
  rewrite Ho, Hrej. done.
Qed.

Lemma X12_promoted_request_carries_captured_data_witness :
  objects
    (snd (getRequestCache (fun _ => None)
            (request (any (fun _ => FetchPromise) "http" uWS.fresh
                          post_request))
            {| objects := []; bodyReads := 0 |}))
  = [{| ro_url := "http://localhost/upload"; ro_method := "POST";
        ro_headers := [("host", "localhost"); ("content-length", "5")];
        ro_body := Some BridgeReadable; ro_duplex := Some "half";
        ro_bodyUsed := false |}].
Proof.
  refine (proj1 (proj2
    (X12_promoted_request_carries_captured_data (fun _ => None)
       (fun _ => FetchPromise) "http" uWS.fresh post_request
       {| objects := []; bodyReads := 0 |} eq_refl))).
Defined.

(* ====================================================================== *)
(** ** Further properties: the body bridge                                *)
(* ====================================================================== *)

Lemma run_app c evs1 evs2 : run c (evs1 ++ evs2) = run (run c evs1) evs2.
Proof. unfold run. apply fold_left_app. Qed.

Lemma bridge_collects chunks c q :
  uWS.dataHandler (res c) = Some WriteToBridge ->
  bodyStream c = Some {| queue := q; state := Writable |} ->
  let c' := run c (map (fun chunk => Data chunk false) chunks) in
  uWS.dataHandler (res c') = Some WriteToBridge /\
  bodyStream c' = Some {| queue := q ++ chunks; state := Writable |}.
Proof.
  revert c q. induction chunks as [|chunk chunks IH]; intros c q Hd Hs.
  - simpl. by rewrite app_nil_r.
  - cbn [map]. rewrite run_cons.
    destruct (IH (step c (Data chunk false)) (q ++ [chunk])) as [Hd' Hs'].
    + simpl. unfold run_data. by rewrite Hd.
    + simpl. unfold run_data. rewrite Hd. simpl. by rewrite Hs.
    + split; [exact Hd'|]. by rewrite Hs', <- app_assoc.
Qed.

(** X13. For a request that can have a body, the chunks the transport
    delivers are queued on the bridge in arrival order: while the body
    is arriving the stream stays open with the chunks so far, and the
    final chunk closes it after being queued. *)
Theorem X13_body_chunks_in_arrival_order app protocol res0 req chunks last :
  has_no_body (toUpperCase (getMethod req)) = false ->
  let c := any app protocol res0 req in
  bodyStream (run c (map (fun chunk => Data chunk false) chunks))
  = Some {| queue := chunks; state := Writable |} /\
  bodyStream (run c (body_events chunks last))
  = Some {| queue := chunks ++ [last]; state := Closed |}.
Proof.
  intros Hm c.
  destruct (any_setup app protocol res0 req) as (_ & Hs & Hd).
  fold c in Hs, Hd. rewrite Hm in Hs, Hd.
  destruct (bridge_collects chunks c [] Hd Hs) as [Hd' Hs'].
  split; [exact Hs'|].
  unfold body_events. rewrite run_app.
  unfold run at 1. simpl. unfold run_data. rewrite Hd'. simpl.
  by rewrite Hs'.
Qed.

Lemma X13_body_chunks_in_arrival_order_witness :
  bodyStream
    (run (any (fun _ => FetchPromise) "http" uWS.fresh post_request)
         (body_events [[x68; x65]; [x6c]] [x6c; x6f]))
  = Some {| queue := [[x68; x65]; [x6c]; [x6c; x6f]]; state := Closed |}.
Proof.
  refine (proj2
    (X13_body_chunks_in_arrival_order (fun _ => FetchPromise) "http"
       uWS.fresh post_request [[x68; x65]; [x6c]] [x6c; x6f] eq_refl)).
Defined.

(* ====================================================================== *)
(** ** Further properties: WebSocket sessions                             *)
(* ====================================================================== *)

Lemma invoke_returns {A} name (cb : Callback A) arg s :
  snd (cb arg) = None ->
  invoke name cb arg s
  = (Normal tt,
     {| data := data s;
        calls := calls s ++ map createWSContext (fst (cb arg));
        console := console s;
        invoked := invoked s ++ [name];
        fetched := fetched s |}).
Proof. unfold invoke. destruct (cb arg) as [cs [e|]]; [done|]. by intros _. Qed.

(** X14. When the path of a session being opened is registered, the
    application is not called: the factory is run on a context built from
    the captured URL and headers, the callback set it returns is stored
    on the session, and [onOpen], if there is one, is invoked once, its
    calls reaching the socket. *)
Theorem X14_registered_path_opens
    (pathname : string -> Completion string)
    (app : LazyRequest -> gmap string WSHandler ->
           Completion HonoResponse * gmap string WSHandler)
    (handler : WSHandler) (evs : WSEvents) (s : Session)
    (wsHandlers : gmap string WSHandler) (path : string) :
  pathname (url (data s)) = Normal path ->
  wsHandlers !! path = Some handler ->
  handler {| ctx_url := url (data s); ctx_headers := headers (data s);
             ctx_raw := createLazyRequest "GET" (url (data s))
                          (headers (data s)) None |} = Normal evs ->
  (forall cb, onOpen evs = Some cb -> snd (cb tt) = None) ->
  let result := open pathname app s wsHandlers in
  fst (fst result) = Normal tt /\ snd result = wsHandlers /\
  fetched (snd (fst result)) = fetched s /\
  console (snd (fst result)) = console s /\
  events (data (snd (fst result))) = Some evs /\
  url (data (snd (fst result))) = url (data s) /\
  headers (data (snd (fst result))) = headers (data s) /\
  invoked (snd (fst result))
  = invoked s ++ match onOpen evs with Some _ => [OnOpen] | None => [] end /\
  calls (snd (fst result))
  = calls s ++ match onOpen evs with
               | Some cb => map createWSContext (fst (cb tt))
               | None => []
               end.
Proof.
  intros Hp Hh Hf Hok result. subst result. unfold open.
  rewrite Hp, Hh. cbn [fst snd]. unfold open_with_handler. rewrite Hf.
  destruct (onOpen evs) as [cb|] eqn:Ho.
  - rewrite (invoke_returns OnOpen cb tt _ (Hok cb eq_refl)). simpl.
    by repeat split.
  - simpl. rewrite !app_nil_r. by repeat split.
Qed.

Lemma X14_registered_path_opens_witness :
  let greet : WSEvents :=
    {| onOpen := Some (fun _ => ([CtxSend (TextData "Welcome!") None None],
                                 None));
       onMessage := None; onClose := None; onError := None |} in
  let result :=
    open (fun _ => Normal "/ws") (fun _ reg => (Throw "unused", reg))
         (session_with None) {["/ws" := fun _ => Normal greet]} in
  calls (snd (fst result)) = [WsSend (TextData "Welcome!") false false] /\
  invoked (snd (fst result)) = [OnOpen] /\
  fetched (snd (fst result)) = [].
Proof.
  intros greet.
  pose proof (X14_registered_path_opens
                (fun _ => Normal "/ws") (fun _ reg => (Throw "unused", reg))
                (fun _ => Normal greet) greet (session_with None)
                {["/ws" := fun _ => Normal greet]} "/ws"
                eq_refl (lookup_singleton_eq _ _) eq_refl) as H.
  destruct H as (_ & _ & Hf & _ & _ & _ & _ & Hi & Hc).
  - intros cb [= <-]. reflexivity.
  - split; [exact Hc|]. split; [exact Hi|exact Hf].
Defined.



(** X16. An error on the way to the callbacks is caught in [open]: when
    the synthetic request to the application fails, or the handler
    factory throws, the error is logged, the session is ended with 1011,
    no callback is invoked and none is stored. *)
Theorem X16_open_catches_setup_errors
    (pathname : string -> Completion string)
    (app : LazyRequest -> gmap string WSHandler ->
           Completion HonoResponse * gmap string WSHandler)
    (s : Session) (wsHandlers : gmap string WSHandler) (path e : string) :
  pathname (url (data s)) = Normal path ->
  let request :=
    createLazyRequest "GET" (url (data s)) (headers (data s)) None in
  let mockContext := {| ctx_url := url (data s);
                        ctx_headers := headers (data s);
                        ctx_raw := request |} in
  (wsHandlers !! path = None /\ fst (app request wsHandlers) = Throw e) \/
  (exists handler : WSHandler,
      wsHandlers !! path = Some handler /\ handler mockContext = Throw e) ->
  let result := open pathname app s wsHandlers in
  fst (fst result) = Normal tt /\
  console (snd (fst result))
  = console s ++ ["WebSocket handler error: " +:+ e] /\
  calls (snd (fst result))
  = calls s ++ [WsEnd (Some 1011%Z) (Some "Internal Error")] /\
  invoked (snd (fst result)) = invoked s /\
  data (snd (fst result)) = data s.
Proof.
  intros Hp request mockContext Hcase result. subst result. unfold open.
  rewrite Hp. destruct Hcase as [[Hnone Happ]|(handler & Hh & Hf)].
  - rewrite Hnone. fold request.
    destruct (app request wsHandlers) as [[response|e'] reg'];
      cbn [fst] in Happ; [done|]. by injection Happ as ->.
  - rewrite Hh. cbn [fst snd]. unfold open_with_handler.
    fold request. fold mockContext. by rewrite Hf.
Qed.

Lemma X16_open_catches_setup_errors_witness :
  let result :=
    open (fun _ => Normal "/ws") (fun _ reg => (Throw "unused", reg))
         (session_with None) {["/ws" := fun _ => Throw "no session"]} in
  calls (snd (fst result)) = [WsEnd (Some 1011%Z) (Some "Internal Error")] /\
  console (snd (fst result)) = ["WebSocket handler error: no session"].
Proof.
  pose proof (X16_open_catches_setup_errors
                (fun _ => Normal "/ws") (fun _ reg => (Throw "unused", reg))
                (session_with None) {["/ws" := fun _ => Throw "no session"]}
                "/ws" "no session" eq_refl) as H.
  destruct H as (_ & Hc & Hw & _).
  - right. eexists. split; [apply lookup_singleton_eq|reflexivity].
  - split; [exact Hw|exact Hc].
Defined.

(** X23. When [onOpen] throws, what it did on its context before has
    reached the socket, the error is logged and the session is ended
    with 1011; the callback set is already stored on the session, so the
    close notification that follows still reaches [onClose]. *)
Theorem X23_onOpen_error_ends_session
    (pathname : string -> Completion string)
    (app : LazyRequest -> gmap string WSHandler ->
           Completion HonoResponse * gmap string WSHandler)
    (handler : WSHandler) (evs : WSEvents) (cb : Callback unit)
    (s : Session) (wsHandlers : gmap string WSHandler) (path e : string) :
  pathname (url (data s)) = Normal path ->
  wsHandlers !! path = Some handler ->
  handler {| ctx_url := url (data s); ctx_headers := headers (data s);
             ctx_raw := createLazyRequest "GET" (url (data s))
                          (headers (data s)) None |} = Normal evs ->
  onOpen evs = Some cb -> snd (cb tt) = Some e ->
  let result := open pathname app s wsHandlers in
  fst (fst result) = Normal tt /\
  console (snd (fst result))
  = console s ++ ["WebSocket handler error: " +:+ e] /\
  calls (snd (fst result))
  = calls s ++ map createWSContext (fst (cb tt))
    ++ [WsEnd (Some 1011%Z) (Some "Internal Error")] /\
  invoked (snd (fst result)) = invoked s ++ [OnOpen] /\
  events (data (snd (fst result))) = Some evs.
Proof.
  intros Hp Hh Hf Ho Hcb result. subst result. unfold open.
  rewrite Hp, Hh. cbn [fst snd]. unfold open_with_handler.
  rewrite Hf, Ho. unfold invoke.
  destruct (cb tt) as [cs thrown]. cbn [snd] in Hcb. subst thrown.
  simpl. by rewrite <- app_assoc.
Qed.

Lemma X23_onOpen_error_ends_session_witness :
  let evs : WSEvents :=
    {| onOpen := Some (fun _ => ([CtxSend (TextData "hi") None None],
                                 Some "boom"));
       onMessage := None; onClose := None; onError := None |} in
  let result :=
    open (fun _ => Normal "/ws") (fun _ reg => (Throw "unused", reg))
         (session_with None) {["/ws" := fun _ => Normal evs]} in
  console (snd (fst result)) = ["WebSocket handler error: boom"] /\
  calls (snd (fst result))
  = [WsSend (TextData "hi") false false;
     WsEnd (Some 1011%Z) (Some "Internal Error")].
Proof.
  intros evs.
  pose proof (X23_onOpen_error_ends_session
                (fun _ => Normal "/ws") (fun _ reg => (Throw "unused", reg))
                (fun _ => Normal evs) evs
                (fun _ => ([CtxSend (TextData "hi") None None], Some "boom"))
                (session_with None) {["/ws" := fun _ => Normal evs]}
                "/ws" "boom"
                eq_refl (lookup_singleton_eq _ _) eq_refl eq_refl eq_refl)
    as (_ & Hc & Hw & _).
  split; [exact Hc|exact Hw].
Defined.

Lemma dispatch_messages s evs cb msgs :
  events (data s) = Some evs -> onMessage evs = Some cb ->
  (forall d, snd (cb d) = None) ->
  dispatch s (map (fun m => Message (fst m) (snd m)) msgs)
  = (Normal tt,
     {| data := data s;
        calls := calls s
                 ++ concat (map (fun m =>
                                   map createWSContext
                                       (fst (cb (messageData (fst m) (snd m)))))
                                msgs);
        console := console s;
        invoked := invoked s ++ replicate (length msgs) OnMessage;
        fetched := fetched s |}).
Proof.
  intros He Hm Hok. revert s He.
  induction msgs as [|[msg isBinary] msgs IH]; intros s He.
  - simpl. rewrite !app_nil_r. by destruct s.
  - cbn [map dispatch fst snd]. unfold message. rewrite He, Hm.
    fold (messageData msg isBinary).
    rewrite (invoke_returns OnMessage cb _ s (Hok _)).
    rewrite IH by done. cbn [data calls console invoked fetched].
    cbn [concat length replicate]. by rewrite <- !app_assoc.
Qed.

(** X17. Inbound messages reach [onMessage] one by one in arrival order,
    a binary message as its bytes and a text message decoded; what the
    callback does on its context for each message reaches the socket in
    that order, and the stored callbacks are left as they are. *)
Theorem X17_messages_dispatched_in_order s evs cb msgs :
  events (data s) = Some evs -> onMessage evs = Some cb ->
  (forall d, snd (cb d) = None) ->
  let result := dispatch s (map (fun m => Message (fst m) (snd m)) msgs) in
  fst result = Normal tt /\
  calls (snd result)
  = calls s
    ++ concat (map (fun m =>
                      map createWSContext
                          (fst (cb (messageData (fst m) (snd m))))) msgs) /\
  invoked (snd result) = invoked s ++ replicate (length msgs) OnMessage /\
  data (snd result) = data s.
Proof.
  intros He Hm Hok result. subst result.
  by rewrite (dispatch_messages s evs cb msgs He Hm Hok).
Qed.

Lemma X17_messages_dispatched_in_order_witness :
  let echo : WSEvents :=
    {| onOpen := None;
       onMessage := Some (fun d => ([CtxSend d None None], None));
       onClose := None; onError := None |} in
  calls (snd (dispatch (session_with (Some echo))
                [Message [x61] false; Message [x62] true;
                 Message [x63] false]))
  = [WsSend (TextData "a") false false;
     WsSend (BinaryData [x62]) false false;
     WsSend (TextData "c") false false].
Proof.
  intros echo.
  refine (proj1 (proj2
    (X17_messages_dispatched_in_order (session_with (Some echo)) echo
       (fun d => ([CtxSend d None None], None))
       [([x61], false); ([x62], true); ([x63], false)]
       eq_refl eq_refl (fun _ => eq_refl)))).
Defined.

Lemma dispatch_without_callbacks s evs :
  events (data s) = None -> dispatch s evs = (Normal tt, s).
Proof.
  intros He. induction evs as [|[msg isBinary|code msg] evs IH]; [done| |].
  - cbn [dispatch]. unfold message. by rewrite He.
  - cbn [dispatch]. unfold close. by rewrite He.
Qed.

(** X18. A session on which no callback set is stored (it was never
    opened, or its open ended it with 1008 or 1011 before the factory
    returned) ignores every message and close notification: nothing is
    invoked, sent or logged. *)
Theorem X18_no_callbacks_no_effect s evs :
  events (data s) = None -> dispatch s evs = (Normal tt, s).
Proof. apply dispatch_without_callbacks. Qed.

Lemma X18_no_callbacks_no_effect_witness :
  dispatch (session_with None)
           [Message [x61] false; CloseNotice 1000 [x62; x79; x65]]
  = (Normal tt, session_with None).
Proof.
  apply (X18_no_callbacks_no_effect (session_with None)). reflexivity.
Defined.

Lemma dispatch_app s evs1 evs2 :
  fst (dispatch s evs1) = Normal tt ->
  dispatch s (evs1 ++ evs2) = dispatch (snd (dispatch s evs1)) evs2.
Proof.
  revert s. induction evs1 as [|ev evs1 IH]; intros s; [done|].
  cbn [app dispatch].
  destruct (match ev with
            | Message msg isBinary => message s msg isBinary
            | CloseNotice code msg => close s code msg
            end) as [[[]|e] s']; [apply IH|done].
Qed.

(** X19. The life of a session on a registered path whose callbacks do
    not throw: [onOpen] is invoked once when the session opens, then
    [onMessage] once for each inbound message in arrival order, then
    [onClose] once with the code as given and the reason decoded from
    the close message; what the callbacks do on their context reaches
    the socket in that order. *)
Theorem X19_session_lifecycle
    (pathname : string -> Completion string)
    (app : LazyRequest -> gmap string WSHandler ->
           Completion HonoResponse * gmap string WSHandler)
    (handler : WSHandler) (evs : WSEvents)
    (cbOpen : Callback unit) (cbMessage : Callback Payload)
    (cbClose : Callback CloseEvent)
    (s : Session) (wsHandlers : gmap string WSHandler) (path : string)
    (msgs : list (list byte * bool)) (code : Z) (msg : list byte) :
  pathname (url (data s)) = Normal path ->
  wsHandlers !! path = Some handler ->
  handler {| ctx_url := url (data s); ctx_headers := headers (data s);
             ctx_raw := createLazyRequest "GET" (url (data s))
                          (headers (data s)) None |} = Normal evs ->
  onOpen evs = Some cbOpen -> onMessage evs = Some cbMessage ->
  onClose evs = Some cbClose ->
  snd (cbOpen tt) = None -> (forall d, snd (cbMessage d) = None) ->
  (forall ev, snd (cbClose ev) = None) ->
  let opened := snd (fst (open pathname app s wsHandlers)) in
  let result :=
    dispatch opened
      (map (fun m => Message (fst m) (snd m)) msgs ++ [CloseNotice code msg]) in
  fst result = Normal tt /\
  invoked (snd result)
  = invoked s ++ [OnOpen] ++ replicate (length msgs) OnMessage ++ [OnClose] /\
  calls (snd result)
  = calls s
    ++ map createWSContext (fst (cbOpen tt))
    ++ concat (map (fun m =>
                      map createWSContext
                          (fst (cbMessage (messageData (fst m) (snd m)))))
                   msgs)
    ++ map createWSContext
         (fst (cbClose {| code := code; reason := utf8_decode msg |})).
Proof.
  intros Hp Hh Hf Ho Hm Hc HokO HokM HokC opened result.
  assert (Hopened :
    opened = {| data := {| url := url (data s); headers := headers (data s);
                           events := Some evs;
                           context :=
                             Some {| ctx_url := url (data s);
                                     ctx_headers := headers (data s);
                                     ctx_raw :=
                                       createLazyRequest "GET" (url (data s))
                                         (headers (data s)) None |} |};
                calls := calls s ++ map createWSContext (fst (cbOpen tt));
                console := console s;
                invoked := invoked s ++ [OnOpen];
                fetched := fetched s |}).
  { subst opened. unfold open. rewrite Hp, Hh. cbn [fst snd].
    unfold open_with_handler. rewrite Hf, Ho.
    by rewrite (invoke_returns OnOpen cbOpen tt _ HokO). }
  subst result. rewrite Hopened.
  match goal with
  | |- context [dispatch ?s0 (_ ++ _)] =>
      pose proof (dispatch_messages s0 evs cbMessage msgs eq_refl Hm HokM)
        as Hd
  end.
  rewrite dispatch_app by (by rewrite Hd). rewrite Hd.
  cbn [snd dispatch]. unfold close. cbn [data events]. rewrite Hc.
  rewrite (invoke_returns OnClose cbClose _ _ (HokC _)).
  cbn [fst snd data calls invoked]. by rewrite <- !app_assoc.
Qed.

Lemma X19_session_lifecycle_witness :
  let echo : WSEvents :=
    {| onOpen := Some (fun _ => ([CtxSend (TextData "Welcome!") None None],
                                 None));
       onMessage := Some (fun d => ([CtxSend d None None], None));
       onClose := Some (fun ev => ([CtxSend (TextData (reason ev)) None None],
                                   None));
       onError := None |} in
  let opened :=
    snd (fst (open (fun _ => Normal "/ws")
                   (fun _ reg => (Throw "unused", reg))
                   (session_with None) {["/ws" := fun _ => Normal echo]})) in
  let result :=
    dispatch opened
      [Message [x61] false; Message [x62] false; Message [x63] false;
       CloseNotice 1000 [x62; x79; x65]] in
  invoked (snd result)
  = [OnOpen; OnMessage; OnMessage; OnMessage; OnClose] /\
  calls (snd result)
  = [WsSend (TextData "Welcome!") false false;
     WsSend (TextData "a") false false;
     WsSend (TextData "b") false false;
     WsSend (TextData "c") false false;
     WsSend (TextData "bye") false false].
Proof.
  intros echo.
  pose proof (X19_session_lifecycle
                (fun _ => Normal "/ws") (fun _ reg => (Throw "unused", reg))
                (fun _ => Normal echo) echo
                (fun _ => ([CtxSend (TextData "Welcome!") None None], None))
                (fun d => ([CtxSend d None None], None))
                (fun ev => ([CtxSend (TextData (reason ev)) None None], None))
                (session_with None) {["/ws" := fun _ => Normal echo]} "/ws"
                [([x61], false); ([x62], false); ([x63], false)]
                1000%Z [x62; x79; x65]
                eq_refl (lookup_singleton_eq _ _) eq_refl
                eq_refl eq_refl eq_refl
                eq_refl (fun _ => eq_refl) (fun _ => eq_refl))
    as (_ & Hi & Hc).
  split; [exact Hi|exact Hc].
Defined.

Lemma lower_upper_char c : lower_char (upper_char c) = lower_char c.
Proof.
  destruct c as [[] [] [] [] [] [] [] []]; vm_compute; reflexivity.
Qed.

Lemma lower_lower_char c : lower_char (lower_char c) = lower_char c.
Proof.
  destruct c as [[] [] [] [] [] [] [] []]; vm_compute; reflexivity.
Qed.

Lemma toLowerCase_toUpperCase s : toLowerCase (toUpperCase s) = toLowerCase s.
Proof.
  induction s as [|c s IH]; [done|].
  cbn. f_equal; [apply lower_upper_char|exact IH].
Qed.

Lemma toLowerCase_idem s : toLowerCase (toLowerCase s) = toLowerCase s.
Proof.
  induction s as [|c s IH]; [done|].
  cbn. f_equal; [apply lower_lower_char|exact IH].
Qed.

Lemma is_ascii_map_chars f s :
  (forall c, (N_of_ascii c <? 128)%N = true ->
             (N_of_ascii (f c) <? 128)%N = true) ->
  is_ascii s = true -> is_ascii (map_chars f s) = true.
Proof.
  intros Hf. unfold is_ascii.
  induction s as [|c s IH]; [done|]. cbn.
  intros [Hc Hs]%andb_true_iff. by rewrite (Hf c Hc), IH.
Qed.

Lemma is_ascii_toUpperCase s :
  is_ascii s = true -> is_ascii (toUpperCase s) = true.
Proof.
  apply is_ascii_map_chars.
  intros c. destruct c as [[] [] [] [] [] [] [] []]; vm_compute; done.
Qed.

Lemma is_ascii_toLowerCase s :
  is_ascii s = true -> is_ascii (toLowerCase s) = true.
Proof.
  apply is_ascii_map_chars.
  intros c. destruct c as [[] [] [] [] [] [] [] []]; vm_compute; done.
Qed.

(** X20. The header lookup of the context given to a handler factory
    compares lower-cased names with the platform's Unicode lower-casing,
    of which only its behaviour on ASCII strings is used: for an ASCII
    name the lookup ignores the case of the name asked for; for any name
    it answers with the value of the first pair whose lower-cased name
    matches (later duplicates are not joined), and with nothing when no
    pair matches. *)
Theorem X20_mock_header_lookup (String_toLowerCase : string -> string) :
  (forall s, is_ascii s = true -> String_toLowerCase s = toLowerCase s) ->
  (forall c name,
      is_ascii name = true ->
      mock_header String_toLowerCase c (toUpperCase name)
      = mock_header String_toLowerCase c name /\
      mock_header String_toLowerCase c (toLowerCase name)
      = mock_header String_toLowerCase c name) /\
  (forall u raw before k v after name,
      String_toLowerCase k = String_toLowerCase name ->
      Forall (fun kv => String_toLowerCase (fst kv)
                        <> String_toLowerCase name) before ->
      mock_header String_toLowerCase
                  {| ctx_url := u;
                     ctx_headers := before ++ (k, v) :: after;
                     ctx_raw := raw |} name = Some v) /\
  (forall c name,
      Forall (fun kv => String_toLowerCase (fst kv)
                        <> String_toLowerCase name)
             (ctx_headers c) ->
      mock_header String_toLowerCase c name = None).
Proof.
  intros Hascii.
  assert (Hskip : forall name before rest,
    Forall (fun kv : string * string =>
              String_toLowerCase (fst kv) <> String_toLowerCase name)
           before ->
    List.find (fun kv : string * string =>
                 String.eqb (String_toLowerCase (fst kv))
                            (String_toLowerCase name))
              (before ++ rest)
    = List.find (fun kv : string * string =>
                   String.eqb (String_toLowerCase (fst kv))
                              (String_toLowerCase name))
                rest).
  { intros name before rest Hb. induction Hb as [|kv before Hkv _ IH]; [done|].
    simpl. apply String.eqb_neq in Hkv. by rewrite Hkv. }
  split; [|split].
  - intros c name Hname. unfold mock_header.
    rewrite (Hascii _ (is_ascii_toUpperCase _ Hname)),
      (Hascii _ (is_ascii_toLowerCase _ Hname)), (Hascii _ Hname).
    by rewrite toLowerCase_toUpperCase, toLowerCase_idem.
  - intros u raw before k v after name Hk Hb. unfold mock_header.
    cbn [ctx_headers]. rewrite Hskip by done. simpl.
    by rewrite Hk, String.eqb_refl.
  - intros c name Hb. unfold mock_header.
    rewrite <- (app_nil_r (ctx_headers c)). by rewrite Hskip.
Qed.

Lemma X20_mock_header_lookup_witness :
  let c := {| ctx_url := "http://localhost/ws";
              ctx_headers := [("Host", "a"); ("host", "b")];
              ctx_raw := createLazyRequest "GET" "http://localhost/ws"
                           [("Host", "a"); ("host", "b")] None |} in
  mock_header toLowerCase c "HOST" = mock_header toLowerCase c "host" /\
  mock_header toLowerCase c "HOST" = Some "a".
Proof.
  intros c.
  destruct (X20_mock_header_lookup toLowerCase (fun s _ => eq_refl))
    as (H1 & H2 & _).
  split.
  - exact (proj1 (H1 c "host" eq_refl)).
  - apply (H2 "http://localhost/ws" (ctx_raw c) [] "Host" "a"
              [("host", "b")] "HOST"); [reflexivity|constructor].
Defined.

(** X21. The [upgrade] callback and the request handler capture a
    request alike: for the same transport request the socket's user data
    holds the URL and the header pairs that the lazy request of the
    handler holds, and until it is opened the session ignores every
    event. *)
Theorem X21_upgrade_captures_like_handler app protocol res0 req :
  url (upgrade protocol req)
  = urlKey (request (any app protocol res0 req)) /\
  headers (upgrade protocol req)
  = headersDataKey (request (any app protocol res0 req)) /\
  forall evs, dispatch (accepted (upgrade protocol req)) evs
              = (Normal tt, accepted (upgrade protocol req)).
Proof.
  destruct (any_setup app protocol res0 req) as (Hr & _ & _).
  rewrite Hr. repeat split. intros evs.
  by apply dispatch_without_callbacks.
Qed.

Lemma step_keeps_request c ev :
  request (step c ev) = request c /\
  (bodyStream c = None -> bodyStream (step c ev) = None).
Proof.
  destruct ev as [|chunk isLast|p|]; simpl.
  - unfold run_aborted. destruct (uWS.abortedHandler _) as [[]|];
      split; try done. simpl. by intros ->.
  - unfold run_data. destruct (uWS.dataHandler _) as [[]|];
      split; try done. simpl. by intros ->.
  - destruct (continuation c); try done. destruct p; [|done].
    destruct (aborted c); [done|].
    destruct (write_response_fields c a) as [-> ->]. done.
  - destruct (continuation c); try done.
    destruct (after_async_fields c
                (writeResponseAsync_resume (res c) s (aborted c)))
      as [-> ->]. done.
Qed.

(** X22. A GET, HEAD or OPTIONS request never gets a body: whatever
    events follow, chunks of data included, no stream is created for the
    connection and the lazy request keeps its null body. *)
Theorem X22_bodiless_methods_stay_bodiless app protocol res0 req evs :
  has_no_body (toUpperCase (getMethod req)) = true ->
  let c := run (any app protocol res0 req) evs in
  bodyStream c = None /\ bodyKey (request c) = None.
Proof.
  intros Hm c. subst c.
  destruct (any_setup app protocol res0 req) as (Hr & Hs & _).
  rewrite Hm in Hr, Hs.
  assert (H : forall c0,
    bodyStream c0 = None -> bodyKey (request c0) = None ->
    bodyStream (run c0 evs) = None /\ bodyKey (request (run c0 evs)) = None).
  { induction evs as [|ev evs IH]; intros c0 Hb Hk; [done|].
    rewrite run_cons. destruct (step_keeps_request c0 ev) as [Hreq Hbs].
    apply IH; [by apply Hbs|by rewrite Hreq]. }
  apply H; [exact Hs|by rewrite Hr].
Qed.

Lemma X22_bodiless_methods_stay_bodiless_witness :
  let req := {| getMethod := "get"; getUrl := "/"; getQuery := "";
                forEach := [("host", "localhost")] |} in
  bodyStream (run (any (fun _ => FetchPromise) "http" uWS.fresh req)
                  [Data [x68] false; Data [x69] true]) = None.
Proof.
  intros req.
  refine (proj1
    (X22_bodiless_methods_stay_bodiless (fun _ => FetchPromise) "http"
       uWS.fresh req [Data [x68] false; Data [x69] true] eq_refl)).
Defined.
